(** * pitest.name: the [PyName] naming service

    A shallow embedding of [src/pitest/name.py] and of the parts of the
    Python runtime it calls ([str] methods, [os.path], [fnmatch], [re],
    [inspect.getmembers]), followed by the properties of the module.

    Python [str] values are modelled as [string] (one [ascii] per character).
    Library functions follow CPython 3.11 on a POSIX host. *)

From stdpp Require Import gmap strings list fin_maps sorting.
From Stdlib Require Import Ascii String ZArith Lia.

Open Scope string_scope.

(* stdpp blocks the unfolding of string concatenation; the proofs below
   compute with it. *)
#[global] Arguments String.append !_ _ / : simpl nomatch.

(** ** [str] methods *)

Module Str.

(** [s.rstrip(c)] for a one-character argument. *)
Fixpoint rstrip (c : ascii) (s : string) : string :=
  match s with
  | "" => ""
  | String a s' =>
      match rstrip c s' with
      | "" => if decide (a = c) then "" else String a ""
      | r => String a r
      end
  end.

(** [s.replace(a, b)] for one-character [a] and [b]. *)
Fixpoint replace (a b : ascii) (s : string) : string :=
  match s with
  | "" => ""
  | String c s' => String (if decide (c = a) then b else c) (replace a b s')
  end.

(** [c in s]. *)
Fixpoint contains (c : ascii) (s : string) : bool :=
  match s with
  | "" => false
  | String a s' => bool_decide (a = c) || contains c s'
  end.

(** [s.split(c)]: never empty, one more field than occurrences of [c]. *)
Fixpoint split (c : ascii) (s : string) : list string :=
  match s with
  | "" => [""]
  | String a s' =>
      if decide (a = c) then "" :: split c s'
      else match split c s' with
           | h :: t => String a h :: t
           | [] => [String a ""]
           end
  end.

(** [sep.join(l)]. *)
Fixpoint join (sep : string) (l : list string) : string :=
  match l with
  | [] => ""
  | [x] => x
  | x :: rest => x ++ sep ++ join sep rest
  end.

(** [s.startswith(p)]. *)
Definition startswith (p s : string) : bool := String.prefix p s.

(** [s.find(c, start)]: the first index [>= start] holding [c], or [-1]. *)
Fixpoint find_from (c : ascii) (s : string) (start : nat) (pos : nat) : Z :=
  match s with
  | "" => (-1)%Z
  | String a s' =>
      if bool_decide (start <= pos) && bool_decide (a = c) then Z.of_nat pos
      else find_from c s' start (S pos)
  end.

Definition find (c : ascii) (s : string) (start : nat) : Z := find_from c s start 0.

(** [s.rfind(c)]: the last index holding [c], or [-1]. *)
Fixpoint rfind_from (c : ascii) (s : string) (pos : nat) : Z :=
  match s with
  | "" => (-1)%Z
  | String a s' =>
      let later := rfind_from c s' (S pos) in
      if bool_decide (0 <= later)%Z then later
      else if decide (a = c) then Z.of_nat pos else (-1)%Z
  end.

Definition rfind (c : ascii) (s : string) : Z := rfind_from c s 0.

(** The slice [s[i:j]] for indices within [0 .. len(s)]. *)
Definition slice (s : string) (i j : nat) : string := String.substring i (j - i) s.

(** The slice [s[i:]]. *)
Definition slice_from (s : string) (i : nat) : string :=
  String.substring i (String.length s - i) s.

(** Last and first characters, [s[-1]] and [s[0]]. *)
Fixpoint last (s : string) : option ascii :=
  match s with
  | "" => None
  | String a "" => Some a
  | String _ s' => last s'
  end.

Definition first (s : string) : option ascii :=
  match s with "" => None | String a _ => Some a end.

(** [s[:-1]] and [s[1:]]. *)
Fixpoint drop_last (s : string) : string :=
  match s with
  | "" => ""
  | String _ "" => ""
  | String a s' => String a (drop_last s')
  end.

Definition drop_first (s : string) : string :=
  match s with "" => "" | String _ s' => s' end.

End Str.

(** ** Regular expressions: the fragment of [re] that the module builds *)

Inductive regex : Type :=
| Eps                                              (* the empty pattern *)
| Lit (c : ascii)                                  (* re.escape(c) *)
| Dot                                              (* .  *)
| CharSet (negate : bool) (items : list (ascii * ascii))  (* [...] and [^...] *)
| Never                                            (* (?!) *)
| Cat (a b : regex)
| Alt (a b : regex)                                (* a|b *)
| Star (greedy : bool) (a : regex)                 (* a* and a*? *)
| Atomic (a : regex)                               (* (?>a) *)
| Group (a : regex)                                (* (a) *)
| DotAll (a : regex)                               (* (?s:a) *)
| Bol                                              (* ^  *)
| Eol                                              (* $  *)
| EndZ.                                            (* \Z *)

Definition newline : ascii := "010"%char.

Definition in_item (c : ascii) (it : ascii * ascii) : bool :=
  bool_decide (nat_of_ascii (fst it) <= nat_of_ascii c)
  && bool_decide (nat_of_ascii c <= nat_of_ascii (snd it)).

Definition orelse {A} (x y : option A) : option A :=
  match x with Some v => Some v | None => y end.

(** The iteration of a star.  [step] matches the body once; an iteration
    that consumes nothing is abandoned, as the engine does, so [fuel], the
    length of the input, is never exhausted.  A greedy star iterates first, a
    lazy one leaves first. *)
Fixpoint star_loop (step : string → (string → option string) → option string)
    (greedy : bool) (k : string → option string) (fuel : nat) (s : string)
    : option string :=
  let again :=
    match fuel with
    | O => None
    | S fuel' =>
        step s (λ s', if bool_decide (String.length s' < String.length s)
                      then star_loop step greedy k fuel' s' else None)
    end in
  if greedy then orelse again (k s) else orelse (k s) again.

(** The backtracking matcher of [re], in continuation-passing style.
    [accept r dotall n s k] tries [r] at the head of the remaining input [s]
    of a subject of length [n], and hands what is left to [k]; alternatives
    are tried in the order of the engine (left branch first). *)
Fixpoint accept (r : regex) (dotall : bool) (n : nat) (s : string)
    (k : string → option string) {struct r} : option string :=
  match r with
  | Eps => k s
  | Lit c =>
      match s with
      | String a s' => if decide (a = c) then k s' else None
      | "" => None
      end
  | Dot =>
      match s with
      | String a s' => if dotall || negb (bool_decide (a = newline)) then k s' else None
      | "" => None
      end
  | CharSet negate items =>
      match s with
      | String a s' => if xorb negate (existsb (in_item a) items) then k s' else None
      | "" => None
      end
  | Never => None
  | Cat a b => accept a dotall n s (λ s', accept b dotall n s' k)
  | Alt a b => orelse (accept a dotall n s k) (accept b dotall n s k)
  | Star greedy a => star_loop (accept a dotall n) greedy k (String.length s) s
  | Atomic a =>
      match accept a dotall n s Some with
      | Some s' => k s'
      | None => None
      end
  | Group a => accept a dotall n s k
  | DotAll a => accept a true n s k
  | Bol => if bool_decide (String.length s = n) then k s else None
  | Eol => if bool_decide (s = "") || bool_decide (s = String newline "") then k s else None
  | EndZ => if bool_decide (s = "") then k s else None
  end.

(** [re.match(pattern, s)]: a match anchored at the start of [s].  The match
    object is represented by the end offset of the match; [None] is no match. *)
Definition re_match (pattern : regex) (s : string) : option nat :=
  match accept pattern false (String.length s) s Some with
  | Some rest => Some (String.length s - String.length rest)
  | None => None
  end.

(** ** [fnmatch] *)

Module fnmatch.

(** The list [res] of [translate]: a [STAR] marker or a translated piece. *)
Inductive token : Type :=
| STAR
| Piece (r : regex).

(** The search for the closing bracket: [rest] is [pat[i:]], just after
    the opening bracket; the result is [j - i], the length of [stuff], or
    [None] when the loop ends with [j >= n]. *)
Definition find_close (rest : string) : option nat :=
  let j := 0 in
  let j := if bool_decide (String.get j rest = Some "!"%char) then S j else j in
  let j := if bool_decide (String.get j rest = Some "]"%char) then S j else j in
  let j := Str.find "]"%char rest j in
  if bool_decide (j < 0)%Z then None else Some (Z.to_nat j).

(** The [while True] loop that cuts [stuff] at the hyphens that build
    ranges.  [skip] counts the characters in which a hyphen is not looked
    for ([k] runs ahead of [i]); [cur] is the chunk read so far.  A hyphen
    that ends [stuff] leaves an empty last chunk, which the source replaces
    by a hyphen at the end of the chunk before. *)
Fixpoint chunks_of (skip : nat) (cur stuff : string) : list string :=
  match stuff with
  | "" => [cur]
  | String c rest =>
      match skip with
      | S m => chunks_of m (cur ++ String c "") rest
      | O =>
          if decide (c = "-"%char) then
            match rest with
            | "" => [cur ++ "-"]
            | _ => cur :: chunks_of 2 "" rest
            end
          else chunks_of 0 (cur ++ String c "") rest
      end
  end.

Definition char_gt (a b : option ascii) : bool :=
  match a, b with
  | Some x, Some y => bool_decide (nat_of_ascii y < nat_of_ascii x)
  | _, _ => false
  end.

(** "Remove empty ranges": the loop runs from the last chunk to the
    second, and merges a chunk into the one before it when the range
    between them is empty. *)
Fixpoint remove_empty_ranges (chunks : list string) : list string :=
  match chunks with
  | [] => []
  | a :: rest =>
      match remove_empty_ranges rest with
      | [] => [a]
      | b :: more =>
          if char_gt (Str.last a) (Str.first b)
          then (Str.drop_last a ++ Str.drop_first b) :: more
          else a :: b :: more
      end
  end.

Fixpoint singles (s : string) : list (ascii * ascii) :=
  match s with
  | "" => []
  | String c s' => (c, c) :: singles s'
  end.

(** The members of the set [[c0-c1-...]] that [re] reads from the chunks
    joined by hyphens: the characters of every chunk, and the range from
    the last character of a chunk to the first of the next.  (The ends of a
    range belong to it, so they may stand as single members as well.) *)
Fixpoint set_items (chunks : list string) : list (ascii * ascii) :=
  match chunks with
  | [] => []
  | a :: rest =>
      singles a
      ++ match Str.last a, rest with
         | Some lo, b :: _ =>
             match Str.first b with Some hi => [(lo, hi)] | None => [] end
         | _, _ => []
         end
      ++ set_items rest
  end.

(** The piece for a bracket expression with body [stuff = pat[i:j]].  The
    three tests are those that the source makes on the chunks joined by
    hyphens (the escapes that it adds change none of them). *)
Definition bracket (stuff : string) : regex :=
  let chunks :=
    if negb (Str.contains "-"%char stuff) then [stuff]
    else remove_empty_ranges
           (chunks_of (if Str.startswith "!" stuff then 2 else 1) "" stuff) in
  let stuff := Str.join "-" chunks in
  if bool_decide (stuff = "") then Never        (* empty range: never match *)
  else if bool_decide (stuff = "!") then Dot    (* negated empty range: any character *)
  else if Str.startswith "!" stuff then
    CharSet true (set_items match chunks with
                            | c0 :: rest => Str.drop_first c0 :: rest
                            | [] => []
                            end)
  else CharSet false (set_items chunks).

(** First loop of [translate], over the characters of [pat].  [skip] is the
    number of characters already consumed by a bracket expression;
    [prev_star] tells that the last element of [res] is [STAR]. *)
Fixpoint tokens (skip : nat) (prev_star : bool) (pat : string) : list token :=
  match pat with
  | "" => []
  | String c rest =>
      match skip with
      | S m => tokens m prev_star rest
      | O =>
          if decide (c = "*"%char) then
            if prev_star then tokens 0 true rest else STAR :: tokens 0 true rest
          else if decide (c = "?"%char) then Piece Dot :: tokens 0 false rest
          else if decide (c = "["%char) then
            match find_close rest with
            | None => Piece (Lit "["%char) :: tokens 0 false rest
            | Some len =>
                Piece (bracket (Str.slice rest 0 len)) :: tokens (S len) false rest
            end
          else Piece (Lit c) :: tokens 0 false rest
      end
  end.

Definition cat_all (l : list regex) : regex := foldr Cat Eps l.

(** Second loop of [translate] ("Deal with STARs"), read from the end of
    [inp]: the result is the run of fixed pieces before the first [STAR],
    and the translation of what starts at that [STAR], if there is one.
    A [STAR] with no later [STAR] is [.*] and its fixed pieces; one with a
    later [STAR] is the atomic group [(?>.*?fixed)]. *)
Fixpoint stars (inp : list token) : list regex * option (list regex) :=
  match inp with
  | [] => ([], None)
  | Piece r :: rest => let '(fixed, after) := stars rest in (r :: fixed, after)
  | STAR :: rest =>
      let '(fixed, after) := stars rest in
      ([], Some match after with
                | None => Star true Dot :: fixed
                | Some more => Atomic (Cat (Star false Dot) (cat_all fixed)) :: more
                end)
  end.

(** The part of the translation inside [(?s:...)]. *)
Definition body (pat : string) : regex :=
  let '(fixed, after) := stars (tokens 0 false pat) in
  cat_all (fixed ++ default [] after).

(** [fnmatch.translate(pat)], the pattern [(?s:res)\Z]. *)
Definition translate (pat : string) : regex := Cat (DotAll (body pat)) EndZ.

(** [fnmatch.fnmatchcase(name, pat)]. *)
Definition fnmatchcase (name pat : string) : bool :=
  bool_decide (is_Some (re_match (translate pat) name)).

(** [fnmatch.fnmatch(name, pat)]; [os.path.normcase] is the identity on
    POSIX. *)
Definition fnmatch (name pat : string) : bool := fnmatchcase name pat.

End fnmatch.


(** ** The interpreter state and the objects of the program *)

(** A Python object as the module sees it:
    - [oid], its identity;
    - [ostr], the text that [str.format] prints for it (for a [str], the
      string itself);
    - [odict], what [getattr] finds on it (attributes are plain stored
      values);
    - [odir], the list [names] of [inspect.getmembers]: the names that [dir]
      lists, which need not be those that [getattr] finds (the [__name__] of
      a class is found and not listed), followed, for a class, by the names
      of the dynamic class attributes of its bases;
    - [ostatic], for a class, what the [__dict__]s along its [__mro__] hold
      (the first that has the name); empty for other objects. *)
#[warnings="-register-all"]
Inductive pyobj : Type :=
  PyObj (oid : nat) (ostr : string) (odict : gmap string pyobj)
        (odir : list string) (ostatic : gmap string pyobj).

Definition oid (o : pyobj) : nat := let 'PyObj i _ _ _ _ := o in i.
Definition ostr (o : pyobj) : string := let 'PyObj _ s _ _ _ := o in s.
Definition odict (o : pyobj) : gmap string pyobj := let 'PyObj _ _ d _ _ := o in d.
Definition odir (o : pyobj) : list string := let 'PyObj _ _ _ l _ := o in l.
Definition ostatic (o : pyobj) : gmap string pyobj := let 'PyObj _ _ _ _ m := o in m.

(** The fields of a [PyName] instance. *)
Record PyNameObj : Type := { _prefix : string; obj : pyobj }.

(** [PyName] instances live in a heap and are known by their address, which
    is their identity (the class defines neither [__eq__] nor [__hash__]). *)
Definition loc := nat.

Record interp : Type := {
  environ : gmap string string;    (* os.environ *)
  pw_uid : option string;          (* pwd.getpwuid(os.getuid()).pw_dir; None: KeyError *)
  pw_nam : gmap string string;     (* name |-> pwd.getpwnam(name).pw_dir *)
  heap : list PyNameObj            (* the PyName instances, by address *)
}.

Definition with_heap (σ : interp) (h : list PyNameObj) : interp :=
  {| environ := environ σ; pw_uid := pw_uid σ; pw_nam := pw_nam σ; heap := h |}.

Inductive exn : Type :=
| AttributeError (o : pyobj) (attribute : string)
| PyNameError (msg : string)
| ValueError (msg : string)
| InvalidReference (l : loc).   (* an address outside the heap; no Python
                                   reference is ever one *)

(** Computations that read and extend the interpreter state, and may raise. *)
Definition M (A : Type) : Type := interp → (exn + A) * interp.

#[global] Instance M_ret : MRet M := λ A (x : A) σ, (inr x, σ).
#[global] Instance M_bind : MBind M := λ A B (f : A → M B) (c : M A) σ,
  match c σ with
  | (inr x, σ') => f x σ'
  | (inl e, σ') => (inl e, σ')
  end.

Definition raise {A} (e : exn) : M A := λ σ, (inl e, σ).
Definition get_state : M interp := λ σ, (inr σ, σ).
Definition alloc (b : PyNameObj) : M loc :=
  λ σ, (inr (List.length (heap σ)), with_heap σ (heap σ ++ [b])).
Definition deref (l : loc) : M PyNameObj :=
  λ σ, match heap σ !! l with
       | Some b => (inr b, σ)
       | None => (inl (InvalidReference l), σ)
       end.

(** [getattr(o, a)], raising [AttributeError], and [hasattr(o, a)]. *)
Definition getattr (o : pyobj) (a : string) : M pyobj :=
  match odict o !! a with
  | Some v => mret v
  | None => raise (AttributeError o a)
  end.

Definition hasattr (o : pyobj) (a : string) : bool :=
  bool_decide (is_Some (odict o !! a)).

Module inspect.

Definition name_le (x y : string * pyobj) : Prop := String.leb x.1 y.1 = true.

#[global] Instance name_le_dec x y : Decision (name_le x y).
Proof. unfold name_le. apply _. Defined.

(** The loop of [inspect._getmembers] over [names], with the set
    [processed].  The value of a key is what [getattr] finds, unless the key
    was processed before or [getattr] raises [AttributeError]: then it is
    what the [__dict__]s of the [__mro__] hold, and without that the key is
    discarded. *)
Fixpoint members_loop (o : pyobj) (names : list string) (processed : gset string)
    : list (string * pyobj) :=
  match names with
  | [] => []
  | key :: rest =>
      let found :=
        match odict o !! key with
        | Some value =>
            if bool_decide (key ∈ processed) then ostatic o !! key else Some value
        | None => ostatic o !! key
        end in
      match found with
      | Some value => (key, value) :: members_loop o rest ({[ key ]} ∪ processed)
      | None => members_loop o rest processed
      end
  end.

(** [inspect.getmembers(o)]: the (name, value) pairs of the loop, sorted by
    name. *)
Definition getmembers (o : pyobj) : list (string * pyobj) :=
  merge_sort name_le (members_loop o (odir o) ∅).

End inspect.

(** ** [pwd] *)

Module pwd.

(** [pwd.getpwnam(name).pw_dir]; [None] stands for the [KeyError] of an
    unknown name.  A name with a NUL character is refused with
    [ValueError]. *)
Definition getpwnam (name : string) : M (option string) :=
  if Str.contains Ascii.zero name then raise (ValueError "embedded null byte")
  else σ ← get_state; mret (pw_nam σ !! name).

(** [pwd.getpwuid(os.getuid()).pw_dir]. *)
Definition getpwuid_self : M (option string) :=
  σ ← get_state; mret (pw_uid σ).

End pwd.

(** ** [os.path] on POSIX *)

Module posixpath.

Definition is_in (comp : string) (l : list string) : bool := bool_decide (comp ∈ l).

(** The body of the loop over [comps] in [normpath]. *)
Definition norm_step (initial_slashes : nat) (new_comps : list string) (comp : string)
    : list string :=
  if is_in comp [""; "."] then new_comps
  else if bool_decide (comp ≠ "..")
          || (bool_decide (initial_slashes = 0) && bool_decide (new_comps = []))
          || (negb (bool_decide (new_comps = []))
              && bool_decide (List.last new_comps "" = ".."))
  then new_comps ++ [comp]
  else if negb (bool_decide (new_comps = [])) then removelast new_comps
  else new_comps.

Definition normpath (path : string) : string :=
  if bool_decide (path = "") then "."
  else
    let initial_slashes :=
      if Str.startswith "/" path then
        if Str.startswith "//" path && negb (Str.startswith "///" path) then 2 else 1
      else 0 in
    let comps := Str.split "/"%char path in
    let new_comps := foldl (norm_step initial_slashes) [] comps in
    let path := Str.join "/" new_comps in
    let path := Str.join "" (replicate initial_slashes "/") ++ path in
    if bool_decide (path = "") then "." else path.

(** [expanduser]: reads [HOME] and the password database.  The [KeyError]
    of a lookup is caught (the path is returned unchanged); the [ValueError]
    of [getpwnam] is not. *)
Definition expanduser (path : string) : M string :=
  if negb (Str.startswith "~" path) then mret path
  else
    let i := Str.find "/"%char path 1 in
    let i := if bool_decide (i < 0)%Z then String.length path else Z.to_nat i in
    userhome ←
      (if bool_decide (i = 1) then
         σ ← get_state;
         match environ σ !! "HOME" with
         | None => pwd.getpwuid_self
         | Some home => mret (Some home)
         end
       else pwd.getpwnam (Str.slice path 1 i));
    match userhome with
    | None => mret path
    | Some userhome =>
        let userhome := Str.rstrip "/"%char userhome in
        let r := userhome ++ Str.slice_from path i in
        mret (if bool_decide (r = "") then "/" else r)
    end.

(** The loop of [genericpath._splitext] that skips leading dots: is there a
    character other than a dot in [p[filenameIndex:dotIndex]]? *)
Fixpoint has_stem (p : string) (filenameIndex : nat) (steps : nat) : bool :=
  match steps with
  | O => false
  | S m =>
      if bool_decide (String.get filenameIndex p ≠ Some "."%char) then true
      else has_stem p (S filenameIndex) m
  end.

(** [splitext]: the extension starts at the last dot of the last
    component, unless that component is made of leading dots up to it. *)
Definition splitext (p : string) : string * string :=
  let sepIndex := Str.rfind "/"%char p in
  let dotIndex := Str.rfind "."%char p in
  if bool_decide (dotIndex > sepIndex)%Z
     && has_stem p (Z.to_nat (sepIndex + 1)) (Z.to_nat (dotIndex - (sepIndex + 1)))
  then (Str.slice p 0 (Z.to_nat dotIndex), Str.slice_from p (Z.to_nat dotIndex))
  else (p, "").

End posixpath.

(** ** class [PyName] *)

Module PyName.

(** [PyName(prefix, obj)]: allocation followed by [__init__]. *)
Definition new (prefix : string) (o : pyobj) : M loc :=
  alloc {| _prefix := Str.rstrip "."%char prefix; obj := o |}.

(** The property [name]. *)
Definition name (self : loc) : M string :=
  b ← deref self;
  n ← getattr (obj b) "__name__";
  mret (_prefix b ++ "." ++ ostr n).

(** ['^(({0})|(.*\.{0}))$'.format(fnmatch.translate(needle))] *)
Definition reg_pattern (needle : string) : regex :=
  let t := fnmatch.translate needle in
  Cat Bol
      (Cat (Group (Alt (Group t)
                       (Group (Cat (Star true Dot) (Cat (Lit "."%char) t)))))
           Eol).

Definition glob_match (haystack needle : string) : option nat :=
  re_match (reg_pattern needle) haystack.

Definition match_ (self : loc) (name_ : string) : M (option nat) :=
  h ← name self;
  mret (glob_match h name_).

Definition sub (self : loc) (attribute : string) : M (option loc) :=
  b ← deref self;
  if hasattr (obj b) attribute then
    o ← getattr (obj b) attribute;
    n ← name self;
    l ← new n o;
    mret (Some l)
  else mret None.

(** The [for] loop of [subglob] over [info], with the set [out]. *)
Fixpoint subglob_loop (self : loc) (pattern : string)
    (info : list (string * pyobj)) (out : gset loc) : M (gset loc) :=
  match info with
  | [] => mret out
  | (name_, member) :: rest =>
      if fnmatch.fnmatch name_ pattern then
        n ← name self;
        l ← new n member;
        subglob_loop self pattern rest ({[l]} ∪ out)
      else subglob_loop self pattern rest out
  end.

Definition subglob (self : loc) (pattern : string) : M (gset loc) :=
  b ← deref self;
  let info := inspect.getmembers (obj b) in
  subglob_loop self pattern info ∅.

Definition to_pyname (fname : string) : M string :=
  p ← posixpath.expanduser (posixpath.normpath fname);
  let '(basename, ext) := posixpath.splitext p in
  if bool_decide (ext ≠ ".py") then
    raise (PyNameError ("Path must be a python file: '" ++ fname ++ "'"))
  else
    let basename := Str.replace "-"%char "_"%char basename in
    if Str.contains "."%char basename || Str.contains ":"%char basename then
      raise (PyNameError ("Path '" ++ basename ++ "' must not have dot '.' or ':'."))
    else
      let retval := Str.replace "/"%char "."%char basename in
      mret retval.

End PyName.

(** * Properties *)

(** ** Strings *)

Section StringFacts.

(** [k] copies of the character [c]. *)
Fixpoint run_of (c : ascii) (k : nat) : string :=
  match k with
  | O => ""
  | S k' => String c (run_of c k')
  end.

Lemma str_app_empty_r (s : string) : s ++ "" = s.
Proof. induction s as [|a s IH]; simpl; congruence. Qed.

Lemma str_app_assoc (s t u : string) : (s ++ t) ++ u = s ++ (t ++ u).
Proof. induction s as [|a s IH]; simpl; congruence. Qed.

Lemma str_length_app (s t : string) :
  String.length (s ++ t) = String.length s + String.length t.
Proof. induction s as [|a s IH]; simpl; congruence. Qed.

Lemma last_cons (a : ascii) (s : string) :
  s ≠ "" → Str.last (String a s) = Str.last s.
Proof. destruct s; [congruence | reflexivity]. Qed.

Lemma last_app (s t : string) : t ≠ "" → Str.last (s ++ t) = Str.last t.
Proof.
  intros Ht. induction s as [|a s IH]; [reflexivity|].
  change (String a s ++ t) with (String a (s ++ t)).
  rewrite last_cons; [exact IH|].
  destruct s; simpl; [exact Ht | discriminate].
Qed.

Lemma rstrip_empty_iff (c : ascii) (s : string) :
  Str.rstrip c s = "" ↔ ∃ k, s = run_of c k.
Proof.
  induction s as [|a s IH]; simpl.
  - split; [exists 0; reflexivity | reflexivity].
  - destruct (Str.rstrip c s) eqn:E.
    + destruct (decide (a = c)) as [->|Hne].
      * split; [|reflexivity]. intros _.
        destruct (proj1 IH eq_refl) as [k ->]. by exists (S k).
      * split; [discriminate|]. intros [[|k] Hk]; [discriminate|].
        simpl in Hk. congruence.
    + split; [discriminate|]. intros [[|k] Hk]; [discriminate|].
      simpl in Hk. injection Hk as -> ->.
      assert (String a0 s0 = "") by (apply IH; by exists k). discriminate.
Qed.

(** [rstrip] cuts a run of [c] off the end ... *)
Lemma rstrip_decompose (c : ascii) (s : string) :
  ∃ k, s = Str.rstrip c s ++ run_of c k.
Proof.
  induction s as [|a s [k IH]]; simpl.
  - by exists 0.
  - destruct (Str.rstrip c s) eqn:E.
    + destruct (decide (a = c)) as [->|Hne].
      * exists (S k). simpl in *. congruence.
      * exists k. simpl in *. congruence.
    + exists k. simpl in *. congruence.
Qed.

(** ... and what is left does not end in [c]. *)
Lemma rstrip_last (c : ascii) (s : string) : Str.last (Str.rstrip c s) ≠ Some c.
Proof.
  induction s as [|a s IH]; simpl; [discriminate|].
  destruct (Str.rstrip c s) eqn:E.
  - destruct (decide (a = c)); simpl; congruence.
  - rewrite last_cons; [exact IH | discriminate].
Qed.

Lemma rstrip_id (c : ascii) (s : string) :
  Str.last s ≠ Some c → Str.rstrip c s = s.
Proof.
  induction s as [|a s IH]; [reflexivity|]. intros Hl. simpl.
  destruct s as [|b s].
  - simpl in *. destruct (decide (a = c)); congruence.
  - rewrite IH; [reflexivity|]. rewrite last_cons in Hl; [exact Hl | discriminate].
Qed.

Lemma rstrip_idempotent (c : ascii) (s : string) :
  Str.rstrip c (Str.rstrip c s) = Str.rstrip c s.
Proof. apply rstrip_id, rstrip_last. Qed.

End StringFacts.

(** ** The state monad *)

Definition no_trailing_dot (s : string) : Prop := Str.last s ≠ Some "."%char.

(** The value of the property [name] for the fields [b], when the subject
    has an identifier. *)
Definition full_name (b : PyNameObj) (ident : string) : string :=
  _prefix b ++ "." ++ ident.

Lemma bind_inr {A B} (c : M A) (f : A → M B) σ x σ' :
  c σ = (inr x, σ') → (c ≫= f) σ = f x σ'.
Proof. intros H. unfold mbind, M_bind. by rewrite H. Qed.

Lemma bind_inl {A B} (c : M A) (f : A → M B) σ e σ' :
  c σ = (inl e, σ') → (c ≫= f) σ = (inl e, σ').
Proof. intros H. unfold mbind, M_bind. by rewrite H. Qed.

Lemma deref_ok σ l b : heap σ !! l = Some b → deref l σ = (inr b, σ).
Proof. intros H. unfold deref. by rewrite H. Qed.

Lemma name_ok σ self b v :
  heap σ !! self = Some b →
  odict (obj b) !! "__name__" = Some v →
  PyName.name self σ = (inr (full_name b (ostr v)), σ).
Proof.
  intros Hb Hv. unfold PyName.name.
  rewrite (bind_inr _ _ _ _ _ (deref_ok _ _ _ Hb)).
  unfold getattr. rewrite Hv. reflexivity.
Qed.

Lemma name_no_identifier σ self b :
  heap σ !! self = Some b →
  odict (obj b) !! "__name__" = None →
  PyName.name self σ = (inl (AttributeError (obj b) "__name__"), σ).
Proof.
  intros Hb Hv. unfold PyName.name.
  rewrite (bind_inr _ _ _ _ _ (deref_ok _ _ _ Hb)).
  unfold getattr. rewrite Hv. reflexivity.
Qed.

Lemma full_name_strip b ident :
  ident ≠ "" → no_trailing_dot ident →
  Str.rstrip "."%char (full_name b ident) = full_name b ident.
Proof.
  intros Hne Hl. apply rstrip_id. unfold full_name.
  rewrite last_app.
  - rewrite last_app; [exact Hl | exact Hne].
  - simpl. discriminate.
Qed.

Lemma new_spec σ p s :
  PyName.new p s σ
  = (inr (List.length (heap σ)),
     with_heap σ (heap σ ++ [{| _prefix := Str.rstrip "."%char p; obj := s |}])).
Proof. reflexivity. Qed.

Lemma lookup_new (h : list PyNameObj) (b : PyNameObj) :
  (h ++ [b])%list !! List.length h = Some b.
Proof. by rewrite list_lookup_middle. Qed.


Lemma new_then_name σ p s v :
  odict s !! "__name__" = Some v →
  (PyName.new p s ≫= PyName.name) σ
  = (inr (Str.rstrip "."%char p ++ "." ++ ostr v),
     with_heap σ (heap σ ++ [{| _prefix := Str.rstrip "."%char p; obj := s |}])).
Proof.
  intros Hv. rewrite (bind_inr _ _ _ _ _ (new_spec σ p s)).
  rewrite (name_ok _ _ {| _prefix := Str.rstrip "."%char p; obj := s |} v);
    [reflexivity | apply lookup_new | exact Hv].
Qed.

(** ** Example objects *)

Definition empty_interp : interp :=
  {| environ := ∅; pw_uid := None; pw_nam := ∅; heap := [] |}.

(** A [str]. *)
Definition py_str (s : string) : pyobj := PyObj 0 s ∅ [] ∅.

(** A class-like object with identity [i], the identifier [ident] and the
    further attributes [attrs]: [getattr] finds [__name__] and [attrs];
    [dir] lists the names of [attrs], not [__name__]. *)
Definition named (i : nat) (ident : string) (attrs : gmap string pyobj) : pyobj :=
  PyObj i "<object>" (<["__name__" := py_str ident]> attrs)
        (merge_sort String.le (elements (dom attrs))) attrs.

Definition test_method : pyobj := named 2 "test_add" ∅.
Definition helper : pyobj := named 3 "helper" ∅.

Definition Case1 : pyobj :=
  named 1 "Case1" {[ "test_add" := test_method; "helper" := helper ]}.

(** An object whose identifier ends in a dot. *)
Definition Odd : pyobj := named 4 "Case." {[ "test_add" := test_method ]}.

(** An object without [__name__]. *)
Definition Anonymous : pyobj :=
  PyObj 5 "<object>" {[ "test_add" := test_method ]} [ "test_add" ] ∅.

(** ** [name] *)

(** C1, amended: for every prefix [p] without a trailing dot and every
    subject [s] with identifier [n], the name of [PyName(p, s)] is
    [p + "." + n]; the empty prefix is no exception, its name is ["." + n],
    with a leading dot. *)
Theorem name_is_prefix_dot_identifier (σ : interp) (p : string) (s v : pyobj) :
  odict s !! "__name__" = Some v →
  no_trailing_dot p →
  ((PyName.new p s ≫= PyName.name) σ).1 = inr (p ++ "." ++ ostr v)
  ∧ ((PyName.new "" s ≫= PyName.name) σ).1 = inr (String "."%char (ostr v)).
Proof.
  intros Hv Hp. split.
  - rewrite (new_then_name _ _ _ _ Hv). simpl. by rewrite (rstrip_id _ _ Hp).
  - by rewrite (new_then_name _ _ _ _ Hv).
Qed.

Lemma name_is_prefix_dot_identifier_witness :
  ((PyName.new "foo.bar" Case1 ≫= PyName.name) empty_interp).1 = inr "foo.bar.Case1"
  ∧ ((PyName.new "" Case1 ≫= PyName.name) empty_interp).1 = inr ".Case1".
Proof.
  apply (name_is_prefix_dot_identifier empty_interp "foo.bar" Case1 (py_str "Case1")).
  - reflexivity.
  - unfold no_trailing_dot. simpl. discriminate.
Defined.

(** C1 as stated fails for the empty prefix: the name of [PyName("", Case1)]
    is [".Case1"], not the bare identifier ["Case1"]. *)
Lemma name_empty_prefix_has_leading_dot :
  ((PyName.new "" Case1 ≫= PyName.name) empty_interp).1 = inr ".Case1"
  ∧ ((PyName.new "" Case1 ≫= PyName.name) empty_interp).1 ≠ inr "Case1".
Proof. split; [reflexivity | discriminate]. Qed.

(** ** [sub] *)

Lemma hasattr_true o a v : odict o !! a = Some v → hasattr o a = true.
Proof. intros H. unfold hasattr. apply bool_decide_eq_true. by exists v. Qed.

Lemma hasattr_false o a : odict o !! a = None → hasattr o a = false.
Proof.
  intros H. unfold hasattr. apply bool_decide_eq_false. rewrite H.
  by intros [? ?].
Qed.

Lemma sub_present σ self b v a o :
  heap σ !! self = Some b →
  odict (obj b) !! "__name__" = Some v →
  odict (obj b) !! a = Some o →
  PyName.sub self a σ
  = (inr (Some (List.length (heap σ))),
     with_heap σ (heap σ ++ [{| _prefix := Str.rstrip "."%char (full_name b (ostr v));
                                obj := o |}])).
Proof.
  intros Hb Hv Ha. unfold PyName.sub.
  rewrite (bind_inr _ _ _ _ _ (deref_ok _ _ _ Hb)).
  rewrite (hasattr_true _ _ _ Ha).
  unfold getattr at 1. rewrite Ha.
  erewrite (bind_inr (mret o)); [|reflexivity].
  rewrite (bind_inr _ _ _ _ _ (name_ok _ _ _ _ Hb Hv)).
  reflexivity.
Qed.

Lemma sub_absent σ self b a :
  heap σ !! self = Some b →
  odict (obj b) !! a = None →
  PyName.sub self a σ = (inr None, σ).
Proof.
  intros Hb Ha. unfold PyName.sub.
  rewrite (bind_inr _ _ _ _ _ (deref_ok _ _ _ Hb)).
  by rewrite (hasattr_false _ _ Ha).
Qed.

(** C6, amended: for a [PyName] [b] whose subject has an identifier, [sub(a)]
    on an attribute that the subject has returns a new instance (a fresh
    address) whose subject is the value of the attribute at the time of the
    call and whose prefix is the name of [b] with its trailing dots stripped
    by the constructor: the name itself when the identifier is not empty and
    does not end in a dot.  On an attribute that the subject does not have,
    [sub(a)] returns [None], raises nothing and allocates nothing. *)
Theorem sub_returns_child_or_none (σ : interp) (self : loc) (b : PyNameObj)
    (v : pyobj) (a : string) :
  heap σ !! self = Some b →
  odict (obj b) !! "__name__" = Some v →
  match odict (obj b) !! a with
  | Some o =>
      ∃ child σ',
        PyName.sub self a σ = (inr (Some child), σ')
        ∧ heap σ !! child = None
        ∧ heap σ' !! child
          = Some {| _prefix := Str.rstrip "."%char (full_name b (ostr v)); obj := o |}
        ∧ (ostr v ≠ "" → no_trailing_dot (ostr v) →
           heap σ' !! child = Some {| _prefix := full_name b (ostr v); obj := o |}
           ∧ PyName.name self σ = (inr (full_name b (ostr v)), σ))
  | None => PyName.sub self a σ = (inr None, σ)
  end.
Proof.
  intros Hb Hv. destruct (odict (obj b) !! a) as [o|] eqn:Ha.
  - eexists _, _. split; [exact (sub_present _ _ _ _ _ _ Hb Hv Ha)|].
    split; [by apply lookup_ge_None_2|].
    split; [apply lookup_new|].
    intros Hne Hl. rewrite <- (full_name_strip b _ Hne Hl) at 2.
    split; [apply lookup_new | exact (name_ok _ _ _ _ Hb Hv)].
  - exact (sub_absent _ _ _ _ Hb Ha).
Qed.

Definition with_case1 : interp := (PyName.new "foo.bar" Case1 empty_interp).2.

Lemma sub_returns_child_or_none_witness :
  (∃ child σ',
      PyName.sub 0 "test_add" with_case1 = (inr (Some child), σ')
      ∧ heap with_case1 !! child = None
      ∧ heap σ' !! child = Some {| _prefix := "foo.bar.Case1"; obj := test_method |}
      ∧ ("Case1" ≠ "" → no_trailing_dot "Case1" →
         heap σ' !! child = Some {| _prefix := "foo.bar.Case1"; obj := test_method |}
         ∧ PyName.name 0 with_case1 = (inr "foo.bar.Case1", with_case1)))
  ∧ PyName.sub 0 "missing" with_case1 = (inr None, with_case1).
Proof.
  split.
  - exact (sub_returns_child_or_none with_case1 0
             {| _prefix := "foo.bar"; obj := Case1 |} (py_str "Case1") "test_add"
             eq_refl eq_refl).
  - exact (sub_absent with_case1 0 {| _prefix := "foo.bar"; obj := Case1 |} "missing"
             eq_refl eq_refl).
Defined.

Definition with_odd : interp := (PyName.new "foo" Odd empty_interp).2.

(** C6 as stated fails when the identifier ends in a dot: the name of the
    parent is ["foo.Case."], the prefix of the child is ["foo.Case"]. *)
Lemma sub_prefix_is_not_the_name :
  PyName.name 0 with_odd = (inr "foo.Case.", with_odd)
  ∧ (PyName.sub 0 "test_add" with_odd).1 = inr (Some 1)
  ∧ _prefix <$> heap (PyName.sub 0 "test_add" with_odd).2 !! 1 = Some "foo.Case"
  ∧ _prefix <$> heap (PyName.sub 0 "test_add" with_odd).2 !! 1 ≠ Some "foo.Case.".
Proof. repeat split; [reflexivity .. | discriminate]. Qed.

(** C10: when the subject has no [__name__], [sub(a)] on an attribute that
    the subject has raises the [AttributeError] of the lookup of [__name__]:
    it returns neither an instance nor [None], and allocates nothing. *)
Theorem sub_raises_without_identifier (σ : interp) (self : loc) (b : PyNameObj)
    (a : string) :
  heap σ !! self = Some b →
  odict (obj b) !! "__name__" = None →
  is_Some (odict (obj b) !! a) →
  PyName.sub self a σ = (inl (AttributeError (obj b) "__name__"), σ)
  ∧ PyName.name self σ = (inl (AttributeError (obj b) "__name__"), σ).
Proof.
  intros Hb Hn [o Ha]. split; [|exact (name_no_identifier _ _ _ Hb Hn)].
  unfold PyName.sub.
  rewrite (bind_inr _ _ _ _ _ (deref_ok _ _ _ Hb)).
  rewrite (hasattr_true _ _ _ Ha).
  unfold getattr at 1. rewrite Ha.
  erewrite (bind_inr (mret o)); [|reflexivity].
  by rewrite (bind_inl _ _ _ _ _ (name_no_identifier _ _ _ Hb Hn)).
Qed.

Definition with_anonymous : interp := (PyName.new "foo" Anonymous empty_interp).2.

Lemma sub_raises_without_identifier_witness :
  PyName.sub 0 "test_add" with_anonymous
  = (inl (AttributeError Anonymous "__name__"), with_anonymous)
  ∧ PyName.name 0 with_anonymous
    = (inl (AttributeError Anonymous "__name__"), with_anonymous).
Proof.
  apply (sub_raises_without_identifier with_anonymous 0
           {| _prefix := "foo"; obj := Anonymous |} "test_add").
  - reflexivity.
  - reflexivity.
  - exists test_method. reflexivity.
Defined.

(** ** Computations and the heap *)

(** [σ'] is [σ] with more instances, all of them with a stripped prefix. *)
Definition extends (σ σ' : interp) : Prop :=
  ∃ ext : list PyNameObj,
    σ' = with_heap σ (heap σ ++ ext)
    ∧ Forall (λ b, no_trailing_dot (_prefix b)) ext.

(** A computation that only allocates such instances. *)
Definition grows {A} (c : M A) : Prop := ∀ σ, extends σ (c σ).2.

(** A computation that leaves the state as it is. *)
Definition reads {A} (c : M A) : Prop := ∀ σ, (c σ).2 = σ.

Lemma with_heap_id σ : with_heap σ (heap σ) = σ.
Proof. by destruct σ. Qed.

Lemma extends_refl σ : extends σ σ.
Proof.
  exists []. split; [|constructor].
  rewrite app_nil_r. symmetry. apply with_heap_id.
Qed.

Lemma extends_trans σ1 σ2 σ3 : extends σ1 σ2 → extends σ2 σ3 → extends σ1 σ3.
Proof.
  intros (e1 & -> & H1) (e2 & -> & H2). exists (e1 ++ e2)%list. split.
  - unfold with_heap; simpl. by rewrite <- (assoc_L (++)).
  - by apply Forall_app.
Qed.

Lemma reads_grows {A} (c : M A) : reads c → grows c.
Proof. intros H σ. rewrite H. apply extends_refl. Qed.

Lemma reads_ret {A} (x : A) : reads (mret x : M A).
Proof. by intros σ. Qed.

Lemma reads_raise {A} e : reads (raise e : M A).
Proof. by intros σ. Qed.

Lemma reads_get_state : reads get_state.
Proof. by intros σ. Qed.

Lemma reads_deref l : reads (deref l).
Proof. intros σ. unfold deref. by destruct (heap σ !! l). Qed.

Lemma reads_getattr o a : reads (getattr o a).
Proof. intros σ. unfold getattr. by destruct (odict o !! a). Qed.

Lemma reads_bind {A B} (c : M A) (f : A → M B) :
  reads c → (∀ x, reads (f x)) → reads (c ≫= f).
Proof.
  intros Hc Hf σ. unfold mbind, M_bind. specialize (Hc σ).
  destruct (c σ) as [[e|x] σ']; simpl in *; subst; [reflexivity | apply Hf].
Qed.

Lemma grows_bind {A B} (c : M A) (f : A → M B) :
  grows c → (∀ x, grows (f x)) → grows (c ≫= f).
Proof.
  intros Hc Hf σ. unfold mbind, M_bind. specialize (Hc σ).
  destruct (c σ) as [[e|x] σ']; simpl in *; [exact Hc|].
  eapply extends_trans; [exact Hc | apply Hf].
Qed.

Lemma grows_new p s : grows (PyName.new p s).
Proof.
  intros σ. eexists [_]. split; [reflexivity|].
  constructor; [apply rstrip_last | constructor].
Qed.

Lemma reads_name self : reads (PyName.name self).
Proof.
  apply reads_bind; [apply reads_deref|]. intros b.
  apply reads_bind; [apply reads_getattr|]. intros n. apply reads_ret.
Qed.

Lemma reads_match self name_ : reads (PyName.match_ self name_).
Proof. apply reads_bind; [apply reads_name|]. intros h. apply reads_ret. Qed.

Lemma grows_sub self a : grows (PyName.sub self a).
Proof.
  apply grows_bind; [apply reads_grows, reads_deref|]. intros b.
  destruct (hasattr (obj b) a); [|apply reads_grows, reads_ret].
  apply grows_bind; [apply reads_grows, reads_getattr|]. intros o.
  apply grows_bind; [apply reads_grows, reads_name|]. intros n.
  apply grows_bind; [apply grows_new|]. intros l. apply reads_grows, reads_ret.
Qed.

Lemma grows_subglob_loop self pattern info out :
  grows (PyName.subglob_loop self pattern info out).
Proof.
  revert out. induction info as [|[name_ member] rest IH]; intros out; simpl.
  - apply reads_grows, reads_ret.
  - destruct (fnmatch.fnmatch name_ pattern); [|apply IH].
    apply grows_bind; [apply reads_grows, reads_name|]. intros n.
    apply grows_bind; [apply grows_new|]. intros l. apply IH.
Qed.

Lemma grows_subglob self pattern : grows (PyName.subglob self pattern).
Proof.
  apply grows_bind; [apply reads_grows, reads_deref|]. intros b.
  apply grows_subglob_loop.
Qed.

Lemma reads_expanduser path : reads (posixpath.expanduser path).
Proof.
  unfold posixpath.expanduser.
  destruct (negb (Str.startswith "~" path)); [apply reads_ret|].
  apply reads_bind; [|intros [userhome|]; apply reads_ret].
  destruct (bool_decide _).
  - apply reads_bind; [apply reads_get_state|]. intros σ.
    destruct (environ σ !! "HOME"); [apply reads_ret|].
    apply reads_bind; [apply reads_get_state|]. intros σ'. apply reads_ret.
  - unfold pwd.getpwnam. destruct (Str.contains _ _); [apply reads_raise|].
    apply reads_bind; [apply reads_get_state|]. intros σ. apply reads_ret.
Qed.

Lemma reads_to_pyname fname : reads (PyName.to_pyname fname).
Proof.
  apply reads_bind; [apply reads_expanduser|]. intros p.
  destruct (posixpath.splitext p) as [basename ext].
  destruct (bool_decide (ext ≠ ".py")); [apply reads_raise|].
  cbv zeta.
  match goal with |- reads (if ?c then _ else _) => destruct c end;
    [apply reads_raise | apply reads_ret].
Qed.

(** ** The stored prefix *)

(** The operations of the module on a [PyName], and the constructor. *)
Inductive op : Type :=
| OpNew (prefix : string) (o : pyobj)
| OpName (self : loc)
| OpMatch (self : loc) (name_ : string)
| OpSub (self : loc) (attribute : string)
| OpSubglob (self : loc) (pattern : string)
| OpToPyname (fname : string).

(** The state after an operation, whether it returns or raises. *)
Definition exec (o : op) (σ : interp) : interp :=
  match o with
  | OpNew prefix s => (PyName.new prefix s σ).2
  | OpName self => (PyName.name self σ).2
  | OpMatch self name_ => (PyName.match_ self name_ σ).2
  | OpSub self attribute => (PyName.sub self attribute σ).2
  | OpSubglob self pattern => (PyName.subglob self pattern σ).2
  | OpToPyname fname => (PyName.to_pyname fname σ).2
  end.

Definition run (ops : list op) (σ : interp) : interp :=
  foldl (λ σ o, exec o σ) σ ops.

Definition heap_ok (σ : interp) : Prop :=
  Forall (λ b, no_trailing_dot (_prefix b)) (heap σ).

Lemma exec_extends o σ : extends σ (exec o σ).
Proof.
  destruct o; simpl.
  - apply grows_new.
  - apply reads_grows, reads_name.
  - apply reads_grows, reads_match.
  - apply grows_sub.
  - apply grows_subglob.
  - apply reads_grows, reads_to_pyname.
Qed.

Lemma run_extends ops σ : extends σ (run ops σ).
Proof.
  revert σ. induction ops as [|o ops IH]; intros σ; simpl.
  - apply extends_refl.
  - eapply extends_trans; [apply exec_extends | apply IH].
Qed.

Lemma extends_lookup σ σ' l b : extends σ σ' → heap σ !! l = Some b → heap σ' !! l = Some b.
Proof. intros (ext & -> & _) H. simpl. by apply lookup_app_l_Some. Qed.

Lemma extends_heap_ok σ σ' : extends σ σ' → heap_ok σ → heap_ok σ'.
Proof. intros (ext & -> & Hext) H. unfold heap_ok. simpl. by apply Forall_app. Qed.

(** C8: the constructor stores the prefix it is given without its trailing
    dots (the input is the stored prefix followed by a run of dots, and the
    stored prefix does not end in a dot), and no sequence of operations of
    the module ([name], [match], [sub], [subglob], [to_pyname], further
    constructions) changes the fields of the instance; so in every state
    reached from a heap of stripped prefixes, every instance has a prefix
    without a trailing dot. *)
Theorem prefix_stripped_and_never_changed (σ : interp) (p : string) (o : pyobj)
    (ops : list op) :
  heap_ok σ →
  let self := List.length (heap σ) in
  let stored := {| _prefix := Str.rstrip "."%char p; obj := o |} in
  let σ1 := (PyName.new p o σ).2 in
  (PyName.new p o σ).1 = inr self
  ∧ (∃ k, p = _prefix stored ++ run_of "."%char k)
  ∧ no_trailing_dot (_prefix stored)
  ∧ heap σ1 !! self = Some stored
  ∧ heap (run ops σ1) !! self = Some stored
  ∧ heap_ok (run ops σ1).
Proof.
  intros Hok self stored σ1.
  assert (Hself : heap σ1 !! self = Some stored) by apply lookup_new.
  split; [reflexivity|].
  split; [apply rstrip_decompose|].
  split; [apply rstrip_last|].
  split; [exact Hself|].
  split.
  - exact (extends_lookup _ _ _ _ (run_extends ops σ1) Hself).
  - apply (extends_heap_ok σ1); [apply run_extends|].
    apply (extends_heap_ok σ); [apply grows_new | exact Hok].
Qed.

Definition session : list op :=
  [ OpName 0; OpMatch 0 "bar.Case1"; OpSub 0 "test_add"; OpSub 0 "missing";
    OpSubglob 0 "*"; OpToPyname "pkg/mod-a.py"; OpNew "pkg.." helper ].

Lemma prefix_stripped_and_never_changed_witness :
  (PyName.new "foo.bar.." Case1 empty_interp).1 = inr 0
  ∧ (∃ k, "foo.bar.." = "foo.bar" ++ run_of "."%char k)
  ∧ no_trailing_dot "foo.bar"
  ∧ heap (PyName.new "foo.bar.." Case1 empty_interp).2 !! 0
    = Some {| _prefix := "foo.bar"; obj := Case1 |}
  ∧ heap (run session (PyName.new "foo.bar.." Case1 empty_interp).2) !! 0
    = Some {| _prefix := "foo.bar"; obj := Case1 |}
  ∧ heap_ok (run session (PyName.new "foo.bar.." Case1 empty_interp).2).
Proof.
  apply (prefix_stripped_and_never_changed empty_interp "foo.bar.." Case1 session).
  constructor.
Defined.

Example session_heap :
  _prefix <$> heap (run session (PyName.new "foo.bar.." Case1 empty_interp).2)
  = [ "foo.bar"; "foo.bar.Case1"; "foo.bar.Case1"; "foo.bar.Case1"; "pkg" ].
Proof. vm_compute. reflexivity. Qed.

(** ** [to_pyname] *)

(** What [to_pyname] does with the expanded path: the code after the call
    of [expanduser]. *)
Definition convert (fname path : string) : exn + string :=
  let '(root, ext) := posixpath.splitext path in
  let stem := Str.replace "-"%char "_"%char root in
  if bool_decide (ext ≠ ".py") then
    inl (PyNameError ("Path must be a python file: '" ++ fname ++ "'"))
  else if Str.contains "."%char stem || Str.contains ":"%char stem then
    inl (PyNameError ("Path '" ++ stem ++ "' must not have dot '.' or ':'."))
  else inr (Str.replace "/"%char "."%char stem).

(** The part of the state that [expanduser] reads. *)
Definition home_env (σ : interp) : option string * option string * gmap string string :=
  (environ σ !! "HOME", pw_uid σ, pw_nam σ).

(** [expanduser] on a path, as a function of the home-directory environment. *)
Definition expanded (env : option string * option string * gmap string string)
    (path : string) : string :=
  let '(home, uid_dir, nam) := env in
  if negb (Str.startswith "~" path) then path
  else
    let i := Str.find "/"%char path 1 in
    let i := if bool_decide (i < 0)%Z then String.length path else Z.to_nat i in
    let userhome :=
      if bool_decide (i = 1) then
        match home with None => uid_dir | Some h => Some h end
      else nam !! Str.slice path 1 i in
    match userhome with
    | None => path
    | Some userhome =>
        let r := Str.rstrip "/"%char userhome ++ Str.slice_from path i in
        if bool_decide (r = "") then "/" else r
    end.

(** The user name of a path that starts with [~user]. *)
Definition user_part (path : string) : option string :=
  if negb (Str.startswith "~" path) then None
  else
    let i := Str.find "/"%char path 1 in
    let i := if bool_decide (i < 0)%Z then String.length path else Z.to_nat i in
    if bool_decide (i = 1) then None else Some (Str.slice path 1 i).

(** The paths on which [getpwnam] raises [ValueError]: those that start
    with [~user] for a user name that has a NUL character. *)
Definition nul_user (path : string) : bool :=
  match user_part path with
  | Some name => Str.contains Ascii.zero name
  | None => false
  end.

(** The outcome of [to_pyname] in a home-directory environment. *)
Definition outcome (env : option string * option string * gmap string string)
    (fname : string) : exn + string :=
  if nul_user (posixpath.normpath fname) then inl (ValueError "embedded null byte")
  else convert fname (expanded env (posixpath.normpath fname)).

Lemma nul_user_no_tilde path : Str.startswith "~" path = false → nul_user path = false.
Proof. intros H. unfold nul_user, user_part. by rewrite H. Qed.

Lemma expanduser_spec path σ :
  posixpath.expanduser path σ
  = (if nul_user path then inl (ValueError "embedded null byte")
     else inr (expanded (home_env σ) path), σ).
Proof.
  unfold posixpath.expanduser, expanded, home_env, nul_user, user_part.
  destruct (negb (Str.startswith "~" path)); [reflexivity|]. cbv zeta.
  destruct (bool_decide (_ = 1)).
  - unfold mbind, M_bind, get_state, pwd.getpwuid_self.
    destruct (environ σ !! "HOME") as [home|]; [reflexivity|].
    simpl. by destruct (pw_uid σ).
  - unfold pwd.getpwnam. destruct (Str.contains Ascii.zero _); [reflexivity|].
    unfold mbind, M_bind, get_state. simpl. by destruct (pw_nam σ !! _).
Qed.

Lemma to_pyname_spec fname σ :
  PyName.to_pyname fname σ = (outcome (home_env σ) fname, σ).
Proof.
  unfold PyName.to_pyname, outcome.
  destruct (nul_user (posixpath.normpath fname)) eqn:Hnul.
  - apply bind_inl. by rewrite expanduser_spec, Hnul.
  - erewrite bind_inr; [|by rewrite expanduser_spec, Hnul].
    unfold convert. destruct (posixpath.splitext _) as [root ext].
    destruct (bool_decide (ext ≠ ".py")); [reflexivity|]. cbv zeta.
    match goal with |- (if ?c then _ else _) _ = _ => destruct c end; reflexivity.
Qed.

Lemma outcome_no_tilde env fname :
  Str.startswith "~" (posixpath.normpath fname) = false →
  outcome env fname = convert fname (posixpath.normpath fname).
Proof.
  intros H. unfold outcome. rewrite (nul_user_no_tilde _ H).
  destruct env as [[home uid] nam]. unfold expanded. by rewrite H.
Qed.

(** C4, amended: [to_pyname("/usr/lib/python/unit-test.py")] returns
    [".usr.lib.python.unit_test"], and
    [to_pyname("relative/path/to/this_modue.py")] returns
    ["relative.path.to.this_modue"]: no letter is added to the name. *)
Theorem to_pyname_docstring_examples (σ : interp) :
  PyName.to_pyname "/usr/lib/python/unit-test.py" σ
  = (inr ".usr.lib.python.unit_test", σ)
  ∧ PyName.to_pyname "relative/path/to/this_modue.py" σ
    = (inr "relative.path.to.this_modue", σ).
Proof. split; rewrite to_pyname_spec; destruct σ; reflexivity. Qed.

(** C4 as stated fails on its second example: the result is not
    ["relative.path.to.this_module"]. *)
Lemma to_pyname_keeps_the_spelling :
  (PyName.to_pyname "relative/path/to/this_modue.py" empty_interp).1
  ≠ inr "relative.path.to.this_module".
Proof. vm_compute. discriminate. Qed.




Example to_pyname_wrong_extension :
  PyName.to_pyname "module.txt" empty_interp
  = (inl (PyNameError "Path must be a python file: 'module.txt'"), empty_interp).
Proof. reflexivity. Qed.

Example to_pyname_extra_dot :
  PyName.to_pyname "module.v2.py" empty_interp
  = (inl (PyNameError "Path 'module.v2' must not have dot '.' or ':'."), empty_interp).
Proof. reflexivity. Qed.

(** C9: [to_pyname] is a function of its argument and of the home-directory
    environment ([HOME] and the password database): in two states with the
    same home-directory environment, whatever else differs, two calls on the
    same string return the same value or raise the same error, and each
    leaves the state as it was. *)
Theorem to_pyname_deterministic_and_pure (σ1 σ2 : interp) (fname : string) :
  home_env σ1 = home_env σ2 →
  (PyName.to_pyname fname σ1).1 = (PyName.to_pyname fname σ2).1
  ∧ (PyName.to_pyname fname σ1).2 = σ1
  ∧ (PyName.to_pyname fname σ2).2 = σ2
  ∧ (PyName.to_pyname fname ≫= λ r1,
       PyName.to_pyname fname ≫= λ r2, mret (r1, r2)) σ1
    = match (PyName.to_pyname fname σ1).1 with
      | inl e => (inl e, σ1)
      | inr r => (inr (r, r), σ1)
      end.
Proof.
  intros Henv. split; [|split; [|split]].
  - by rewrite !to_pyname_spec, Henv.
  - by rewrite to_pyname_spec.
  - by rewrite to_pyname_spec.
  - unfold mbind, M_bind. rewrite to_pyname_spec.
    destruct (outcome _ _) as [e|r] eqn:E; [reflexivity|].
    rewrite to_pyname_spec, E. reflexivity.
Qed.

Definition other_interp : interp :=
  {| environ := {[ "PATH" := "/usr/bin" ]}; pw_uid := None; pw_nam := ∅;
     heap := [ {| _prefix := "foo"; obj := Case1 |} ] |}.

Lemma to_pyname_deterministic_and_pure_witness :
  (PyName.to_pyname "~/pkg/mod-a.py" empty_interp).1
  = (PyName.to_pyname "~/pkg/mod-a.py" other_interp).1
  ∧ (PyName.to_pyname "~/pkg/mod-a.py" empty_interp).2 = empty_interp
  ∧ (PyName.to_pyname "~/pkg/mod-a.py" other_interp).2 = other_interp
  ∧ (PyName.to_pyname "~/pkg/mod-a.py" ≫= λ r1,
       PyName.to_pyname "~/pkg/mod-a.py" ≫= λ r2, mret (r1, r2)) empty_interp
    = match (PyName.to_pyname "~/pkg/mod-a.py" empty_interp).1 with
      | inl e => (inl e, empty_interp)
      | inr r => (inr (r, r), empty_interp)
      end.
Proof.
  apply (to_pyname_deterministic_and_pure empty_interp other_interp "~/pkg/mod-a.py").
  reflexivity.
Defined.

Example to_pyname_home :
  (PyName.to_pyname "~/pkg/mod-a.py"
     {| environ := {[ "HOME" := "/home/u/" ]}; pw_uid := None; pw_nam := ∅;
        heap := [] |}).1
  = inr ".home.u.pkg.mod_a".
Proof. reflexivity. Qed.

(** ** The matcher *)

(** Patterns without [^]: their matches do not depend on the offset. *)
Fixpoint bol_free (r : regex) : bool :=
  match r with
  | Bol => false
  | Cat a b | Alt a b => bol_free a && bol_free b
  | Star _ a | Atomic a | Group a | DotAll a => bol_free a
  | _ => true
  end.

Lemma is_Some_orelse {A} (x y : option A) :
  is_Some (orelse x y) ↔ is_Some x ∨ is_Some y.
Proof.
  destruct x; simpl.
  - split; [by left | by eauto].
  - split; [by right | intros [[? ?]|H]; [discriminate | exact H]].
Qed.

Section Continuations.

Local Abbreviation cont := (string → option string).
Local Abbreviation same k k' := (∀ x : string, k x = k' x).
Local Abbreviation alike k k' := (∀ x : string, is_Some (k x) ↔ is_Some (k' x)).

Lemma star_loop_same (step step' : string → cont → option string) greedy
    (k k' : cont) fuel s :
  (∀ s k1 k2, same k1 k2 → step s k1 = step' s k2) →
  same k k' →
  star_loop step greedy k fuel s = star_loop step' greedy k' fuel s.
Proof.
  intros Hstep Hk. revert s.
  induction fuel as [|fuel IH]; intros s; simpl; rewrite Hk; [reflexivity|].
  rewrite (Hstep s _
    (λ s', if bool_decide (String.length s' < String.length s)
           then star_loop step' greedy k' fuel s' else None)); [reflexivity|].
  intros x. destruct (bool_decide _); [apply IH | reflexivity].
Qed.

Lemma accept_same r :
  bol_free r = true →
  ∀ d n n' s (k k' : cont), same k k' → accept r d n s k = accept r d n' s k'.
Proof.
  induction r as [|c| |neg items| |a IHa b IHb|a IHa b IHb|g a IHa|a IHa|a IHa|a IHa| | |];
    simpl; intros Hb d n n' s k k' Hk.
  - apply Hk.
  - destruct s; [reflexivity|]. by rewrite Hk.
  - destruct s; [reflexivity|]. by rewrite Hk.
  - destruct s; [reflexivity|]. by rewrite Hk.
  - reflexivity.
  - apply andb_true_iff in Hb as [Ha Hb].
    apply IHa; [exact Ha|]. intros x. by apply IHb.
  - apply andb_true_iff in Hb as [Ha Hb].
    by rewrite (IHa Ha d n n' s k k' Hk), (IHb Hb d n n' s k k' Hk).
  - apply star_loop_same; [|exact Hk]. intros s0 k1 k2 H12. by apply IHa.
  - rewrite (IHa Hb d n n' s Some Some (λ _, eq_refl)).
    destruct (accept a d n' s Some); [apply Hk | reflexivity].
  - by apply IHa.
  - by apply IHa.
  - discriminate.
  - by rewrite Hk.
  - by rewrite Hk.
Qed.

Lemma star_loop_alike (step step' : string → cont → option string) greedy
    (k k' : cont) fuel s :
  (∀ s k1 k2, alike k1 k2 → is_Some (step s k1) ↔ is_Some (step' s k2)) →
  alike k k' →
  is_Some (star_loop step greedy k fuel s)
  ↔ is_Some (star_loop step' greedy k' fuel s).
Proof.
  intros Hstep Hk. revert s.
  induction fuel as [|fuel IH]; intros s; cbn [star_loop];
    destruct greedy; rewrite !is_Some_orelse, (Hk s); try reflexivity.
  - rewrite (Hstep s _
      (λ s', if bool_decide (String.length s' < String.length s)
             then star_loop step' true k' fuel s' else None)); [reflexivity|].
    intros x. destruct (bool_decide _); [apply IH | reflexivity].
  - rewrite (Hstep s _
      (λ s', if bool_decide (String.length s' < String.length s)
             then star_loop step' false k' fuel s' else None)); [reflexivity|].
    intros x. destruct (bool_decide _); [apply IH | reflexivity].
Qed.

(** Whether a pattern without [^] matches depends on the continuation only
    through the remainders that the continuation accepts. *)
Lemma accept_alike r :
  bol_free r = true →
  ∀ d n n' s (k k' : cont),
    alike k k' → is_Some (accept r d n s k) ↔ is_Some (accept r d n' s k').
Proof.
  induction r as [|c| |neg items| |a IHa b IHb|a IHa b IHb|g a IHa|a IHa|a IHa|a IHa| | |];
    simpl; intros Hb d n n' s k k' Hk.
  - apply Hk.
  - destruct s; [reflexivity|]. destruct (decide _); [apply Hk | reflexivity].
  - destruct s; [reflexivity|]. destruct (_ || _); [apply Hk | reflexivity].
  - destruct s; [reflexivity|]. destruct (xorb _ _); [apply Hk | reflexivity].
  - reflexivity.
  - apply andb_true_iff in Hb as [Ha Hb].
    apply IHa; [exact Ha|]. intros x. by apply IHb.
  - apply andb_true_iff in Hb as [Ha Hb].
    rewrite !is_Some_orelse.
    by rewrite (IHa Ha d n n' s k k' Hk), (IHb Hb d n n' s k k' Hk).
  - apply star_loop_alike; [|exact Hk]. intros s0 k1 k2 H12. by apply IHa.
  - rewrite (accept_same a Hb d n n' s Some Some (λ _, eq_refl)).
    destruct (accept a d n' s Some); [apply Hk | reflexivity].
  - by apply IHa.
  - by apply IHa.
  - discriminate.
  - destruct (_ || _); [apply Hk | reflexivity].
  - destruct (bool_decide _); [apply Hk | reflexivity].
Qed.

End Continuations.

(** [.*]: a greedy star of a dot takes any prefix of the input, without
    line feeds unless the dot matches all. *)
Lemma dot_star_some d n (k : string → option string) fuel s :
  (String.length s ≤ fuel)%nat →
  is_Some (star_loop (accept Dot d n) true k fuel s)
  ↔ ∃ x y, s = x ++ y
           ∧ (d = true ∨ Str.contains newline x = false)
           ∧ is_Some (k y).
Proof.
  revert fuel. induction s as [|a s IH]; intros fuel Hfuel.
  - assert (Hnone : is_Some (star_loop (accept Dot d n) true k fuel "")
                    ↔ is_Some (k "")).
    { destruct fuel; cbn [star_loop]; rewrite is_Some_orelse; simpl;
        split; [intros [[? ?]|H]| |intros [[? ?]|H]|]; by eauto. }
    rewrite Hnone. split.
    + intros H. exists "", "". by eauto.
    + intros (x & y & Hxy & _ & H). destruct x; [|discriminate].
      simpl in Hxy. by subst.
  - destruct fuel as [|fuel]; [simpl in Hfuel; lia|].
    cbn [star_loop]. rewrite is_Some_orelse. cbn [accept].
    rewrite (bool_decide_eq_true_2 (String.length s < String.length (String a s)))
      by (simpl; lia).
    assert (Hs : (String.length s ≤ fuel)%nat) by (simpl in Hfuel; lia).
    specialize (IH fuel Hs). split.
    + intros [H|H].
      * destruct (d || negb (bool_decide (a = newline))) eqn:Hd;
          [|by destruct H].
        apply IH in H as (x & y & -> & Hx & Hy).
        exists (String a x), y. split; [reflexivity|]. split; [|exact Hy].
        destruct d; [by left|]. right. simpl in *.
        destruct Hx as [?|Hx]; [discriminate|]. rewrite Hx.
        by destruct (bool_decide (a = newline)).
      * exists "", (String a s). by eauto.
    + intros (x & y & Hxy & Hx & Hy). destruct x as [|b x].
      * right. simpl in Hxy. by subst.
      * left. simpl in Hxy. injection Hxy as -> ->.
        assert (Hd : d || negb (bool_decide (b = newline)) = true).
        { destruct Hx as [->|Hx]; [reflexivity|]. simpl in Hx.
          apply orb_false_iff in Hx as [-> _]. by destruct d. }
        rewrite Hd. apply IH. exists x, y. split; [reflexivity|].
        split; [|exact Hy]. destruct Hx as [?|Hx]; [by left|]. right.
        simpl in Hx. by apply orb_false_iff in Hx as [_ ?].
Qed.

Lemma is_Some_re_match r s :
  is_Some (re_match r s) ↔ is_Some (accept r false (String.length s) s Some).
Proof.
  unfold re_match. destruct (accept _ _ _ _ _).
  - split; by eauto.
  - split; by intros [? ?].
Qed.

(** ** [fnmatch.translate] *)

Definition token_free (t : fnmatch.token) : bool :=
  match t with
  | fnmatch.STAR => true
  | fnmatch.Piece r => bol_free r
  end.

Lemma bracket_free stuff : bol_free (fnmatch.bracket stuff) = true.
Proof.
  unfold fnmatch.bracket. cbv zeta.
  repeat match goal with
         | |- bol_free (if ?c then _ else _) = true => destruct c
         end; reflexivity.
Qed.

Lemma tokens_free pat : ∀ skip prev_star,
  forallb token_free (fnmatch.tokens skip prev_star pat) = true.
Proof.
  induction pat as [|c rest IH]; intros skip prev_star; [reflexivity|].
  simpl. destruct skip; [|apply IH].
  destruct (decide (c = "*"%char)); [destruct prev_star; simpl; apply IH|].
  destruct (decide (c = "?"%char)); [simpl; apply IH|].
  destruct (decide (c = "["%char)); [|simpl; apply IH].
  destruct (fnmatch.find_close rest); simpl; [|apply IH].
  rewrite bracket_free. apply IH.
Qed.

Lemma cat_all_free l : forallb bol_free l = true → bol_free (fnmatch.cat_all l) = true.
Proof.
  induction l as [|r l IH]; simpl; [reflexivity|].
  intros [Hr Hl]%andb_true_iff. by rewrite Hr, IH.
Qed.

Lemma stars_free inp :
  forallb token_free inp = true →
  forallb bol_free (fnmatch.stars inp).1 = true
  ∧ forallb bol_free (default [] (fnmatch.stars inp).2) = true.
Proof.
  induction inp as [|t inp IH]; simpl; [by split|].
  intros [Ht Hinp]%andb_true_iff. destruct (IH Hinp) as [Hf Ha].
  destruct (fnmatch.stars inp) as [fixed after]. simpl in *.
  destruct t as [|r]; simpl in *.
  - split; [reflexivity|]. destruct after as [more|]; simpl in *.
    + by rewrite cat_all_free.
    + exact Hf.
  - split; [by rewrite Ht, Hf | exact Ha].
Qed.

Lemma body_free pat : bol_free (fnmatch.body pat) = true.
Proof.
  unfold fnmatch.body.
  destruct (stars_free (fnmatch.tokens 0 false pat) (tokens_free pat 0 false))
    as [Hf Ha].
  destruct (fnmatch.stars _) as [fixed after]. simpl in *.
  apply cat_all_free. rewrite forallb_app. by rewrite Hf, Ha.
Qed.

(** The translated pattern matches at any offset, under any flag and before
    any continuation that accepts the end of the input, exactly when
    [fnmatchcase] holds for what is left of the input. *)
Lemma translate_accept pat d n s (k : string → option string) :
  is_Some (k "") →
  is_Some (accept (fnmatch.translate pat) d n s k)
  ↔ fnmatch.fnmatchcase s pat = true.
Proof.
  intros Hk. unfold fnmatch.fnmatchcase.
  rewrite bool_decide_eq_true, is_Some_re_match.
  unfold fnmatch.translate. cbn [accept].
  apply accept_alike; [apply body_free|].
  intros x. destruct (bool_decide (x = "")) eqn:E; [|reflexivity].
  apply bool_decide_eq_true in E as ->. split; by eauto.
Qed.

(** ** [split] and [join] *)

Lemma split_nonempty c s : Str.split c s ≠ [].
Proof.
  destruct s as [|a s]; simpl; [discriminate|].
  destruct (decide (a = c)); [discriminate|].
  destruct (Str.split c s); discriminate.
Qed.

Lemma split_app c x y :
  Str.split c (x ++ String c y) = (Str.split c x ++ Str.split c y)%list.
Proof.
  induction x as [|a x IH]; simpl.
  - destruct (decide (c = c)); [reflexivity | contradiction].
  - destruct (decide (a = c)); [by rewrite IH|].
    rewrite IH. pose proof (split_nonempty c x) as Hx.
    destruct (Str.split c x); [contradiction | reflexivity].
Qed.

Lemma join_split c s : Str.join (String c "") (Str.split c s) = s.
Proof.
  induction s as [|a s IH]; [reflexivity|].
  pose proof (split_nonempty c s) as Hs. simpl.
  destruct (decide (a = c)) as [->|Hne].
  - destruct (Str.split c s) as [|u t]; [contradiction|].
    simpl in *. by rewrite IH.
  - destruct (Str.split c s) as [|u t]; [contradiction|].
    destruct t; simpl in *; by rewrite <- IH.
Qed.

Lemma join_app sep (l1 l2 : list string) :
  l1 ≠ [] → l2 ≠ [] →
  Str.join sep (l1 ++ l2) = Str.join sep l1 ++ sep ++ Str.join sep l2.
Proof.
  intros H1 H2. induction l1 as [|u l1 IH]; [contradiction|].
  destruct l1 as [|u' l1].
  - destruct l2; [contradiction | reflexivity].
  - change (Str.join sep ((u :: u' :: l1) ++ l2))
      with (u ++ sep ++ Str.join sep ((u' :: l1) ++ l2)).
    rewrite IH by discriminate.
    change (Str.join sep (u :: u' :: l1)) with (u ++ sep ++ Str.join sep (u' :: l1)).
    by rewrite !str_app_assoc.
Qed.

(** ** [glob_match] *)

Definition no_newline (s : string) : Prop := Str.contains newline s = false.

(** [y] is what follows one of the dots of [h]. *)
Definition dot_suffix (y h : string) : Prop := ∃ x, h = x ++ "." ++ y.

Lemma contains_app c x y :
  Str.contains c (x ++ y) = Str.contains c x || Str.contains c y.
Proof.
  induction x as [|a x IH]; simpl; [reflexivity|].
  rewrite IH. by rewrite orb_assoc.
Qed.

(** A dot-bounded suffix is a trailing run of whole components: the
    components of [h] from the [i]-th on, for some [i] other than [0]. *)
Lemma dot_suffix_components y h :
  dot_suffix y h
  ↔ ∃ i, 0 < i < List.length (Str.split "."%char h)
         ∧ y = Str.join "." (drop i (Str.split "."%char h)).
Proof.
  split.
  - intros [x ->]. exists (List.length (Str.split "."%char x)).
    change (x ++ "." ++ y) with (x ++ String "."%char y).
    rewrite split_app, length_app, drop_app_length.
    pose proof (split_nonempty "."%char x) as Hx.
    pose proof (split_nonempty "."%char y) as Hy.
    split; [|symmetry; apply join_split].
    destruct (Str.split "."%char x), (Str.split "."%char y); simpl; try done; lia.
  - intros (i & [Hi1 Hi2] & ->). exists (Str.join "." (take i (Str.split "."%char h))).
    rewrite <- join_app.
    + by rewrite take_drop, join_split.
    + intros H%(f_equal List.length). rewrite length_take in H. simpl in H. lia.
    + intros H%(f_equal List.length). rewrite length_drop in H. simpl in H. lia.
Qed.

(** [$] after the pattern. *)
Definition at_eol (s : string) : option string :=
  accept Eol false 0 s Some.

Lemma accept_reg_pattern h g :
  accept (PyName.reg_pattern g) false (String.length h) h Some
  = orelse
      (accept (fnmatch.translate g) false (String.length h) h at_eol)
      (star_loop (accept Dot false (String.length h)) true
         (λ s, accept (Lit "."%char) false (String.length h) s
                 (λ s', accept (fnmatch.translate g) false (String.length h) s' at_eol))
         (String.length h) h).
Proof.
  unfold PyName.reg_pattern. cbn [accept].
  rewrite bool_decide_eq_true_2 by reflexivity. reflexivity.
Qed.

(** What the pattern of [glob_match] accepts. *)
Lemma glob_match_some h g :
  is_Some (PyName.glob_match h g)
  ↔ fnmatch.fnmatchcase h g = true
    ∨ ∃ x y, h = x ++ "." ++ y ∧ no_newline x ∧ fnmatch.fnmatchcase y g = true.
Proof.
  unfold PyName.glob_match. rewrite is_Some_re_match, accept_reg_pattern.
  rewrite is_Some_orelse, translate_accept by (simpl; by eauto).
  rewrite dot_star_some by lia.
  apply or_iff_compat_l. split.
  - intros (x & y & -> & [?|Hx] & Hy); [discriminate|].
    destruct y as [|a y]; [by destruct Hy|]. cbn [accept] in Hy.
    destruct (decide (a = "."%char)) as [->|]; [|by destruct Hy].
    apply translate_accept in Hy; [|simpl; by eauto].
    by exists x, y.
  - intros (x & y & -> & Hx & Hy). exists x, (String "."%char y).
    split; [reflexivity|]. split; [by right|]. cbn [accept].
    rewrite decide_True by reflexivity.
    apply translate_accept; [simpl; by eauto | exact Hy].
Qed.

(** A haystack with a line feed before its last dot. *)
Definition two_lines : string := String "a"%char (String newline "b.Case1").

(** C2 as stated fails on a haystack with a line feed: ["Case1"] matches the
    dot-bounded suffix ["Case1"] of [two_lines], and [glob_match] returns
    [None], because the [.*] before the dot does not cross a line feed. *)
Lemma glob_match_stops_at_line_feed :
  ¬ (is_Some (PyName.glob_match two_lines "Case1")
     ↔ fnmatch.fnmatchcase two_lines "Case1" = true
       ∨ ∃ y, dot_suffix y two_lines ∧ fnmatch.fnmatchcase y "Case1" = true).
Proof.
  intros [_ H].
  assert (Hnone : PyName.glob_match two_lines "Case1" = None)
    by (vm_compute; reflexivity).
  rewrite Hnone in H. apply (is_Some_None (A := nat)), H. right.
  exists "Case1". split; [|vm_compute; reflexivity].
  by exists (String "a"%char (String newline "b")).
Qed.

(** C2, amended: for a haystack [h] without line feed and every needle [g],
    [glob_match(h, g)] is truthy if and only if the needle, as a glob,
    matches [h] as a whole or matches a dot-bounded suffix of [h]: a trailing
    run of whole dot-separated components.  The five pairs of the docstring
    evaluate as listed; in particular ["Case10"] does not match
    ["foo.bar.Case100"]. *)
Theorem glob_match_suffix_semantics (h g : string) :
  no_newline h →
  (is_Some (PyName.glob_match h g)
   ↔ fnmatch.fnmatchcase h g = true
     ∨ ∃ y, dot_suffix y h ∧ fnmatch.fnmatchcase y g = true)
  ∧ (∀ y, dot_suffix y h
          ↔ ∃ i, 0 < i < List.length (Str.split "."%char h)
                 ∧ y = Str.join "." (drop i (Str.split "."%char h)))
  ∧ is_Some (PyName.glob_match "foo.bar.Case1" "Case1")
  ∧ is_Some (PyName.glob_match "foo.bar.Case1" "bar.Case1")
  ∧ PyName.glob_match "foo.bar.Case1" "foo.Case1" = None
  ∧ PyName.glob_match "foo.bar.Case1" "Case2" = None
  ∧ PyName.glob_match "foo.bar.Case100" "Case10" = None.
Proof.
  intros Hh. split; [|split; [intros y; apply dot_suffix_components|]].
  - rewrite glob_match_some. apply or_iff_compat_l. split.
    + intros (x & y & -> & _ & Hy). exists y. split; [by exists x | exact Hy].
    + intros (y & [x ->] & Hy). exists x, y. split; [reflexivity|].
      split; [|exact Hy]. unfold no_newline in *.
      rewrite contains_app in Hh. by apply orb_false_iff in Hh as [? _].
  - repeat split; try (vm_compute; by eauto); vm_compute; reflexivity.
Qed.

Lemma glob_match_suffix_semantics_witness :
  (is_Some (PyName.glob_match "foo.bar.Case1" "bar.Case1")
   ↔ fnmatch.fnmatchcase "foo.bar.Case1" "bar.Case1" = true
     ∨ ∃ y, dot_suffix y "foo.bar.Case1" ∧ fnmatch.fnmatchcase y "bar.Case1" = true)
  ∧ (∀ y, dot_suffix y "foo.bar.Case1"
          ↔ ∃ i, 0 < i < List.length (Str.split "."%char "foo.bar.Case1")
                 ∧ y = Str.join "." (drop i (Str.split "."%char "foo.bar.Case1")))
  ∧ is_Some (PyName.glob_match "foo.bar.Case1" "Case1")
  ∧ is_Some (PyName.glob_match "foo.bar.Case1" "bar.Case1")
  ∧ PyName.glob_match "foo.bar.Case1" "foo.Case1" = None
  ∧ PyName.glob_match "foo.bar.Case1" "Case2" = None
  ∧ PyName.glob_match "foo.bar.Case100" "Case10" = None.
Proof.
  apply (glob_match_suffix_semantics "foo.bar.Case1" "bar.Case1").
  reflexivity.
Defined.

Example glob_match_whole_string :
  PyName.glob_match "foo.bar.Case1" "bar.Case1" = Some 13.
Proof. vm_compute. reflexivity. Qed.

(** C3: the star of a needle is not confined to one component.  The needle
    ["f*1"], translated to [f], [.*] under the flag that lets the dot match
    everything, and [1], matches the haystack ["foo.bar.Case1"], which has
    dots; it matches neither of its dot-bounded suffixes, so the match is the
    one of the whole haystack, where the star stands for ["oo.bar.Case"]. *)
Theorem star_matches_across_dots :
  Str.contains "."%char "foo.bar.Case1" = true
  ∧ Str.contains "*"%char "f*1" = true
  ∧ is_Some (PyName.glob_match "foo.bar.Case1" "f*1")
  ∧ fnmatch.translate "f*1"
    = Cat (DotAll (Cat (Lit "f"%char) (Cat (Star true Dot) (Cat (Lit "1"%char) Eps))))
          EndZ
  ∧ fnmatch.fnmatchcase "foo.bar.Case1" "f*1" = true
  ∧ fnmatch.fnmatchcase "bar.Case1" "f*1" = false
  ∧ fnmatch.fnmatchcase "Case1" "f*1" = false
  ∧ Str.split "."%char "foo.bar.Case1" = ["foo"; "bar"; "Case1"].
Proof.
  repeat split; try (vm_compute; by eauto); vm_compute; reflexivity.
Qed.

(** ** [subglob] *)

Lemma translate_star :
  fnmatch.translate "*" = Cat (DotAll (Cat (Star true Dot) Eps)) EndZ.
Proof. reflexivity. Qed.

(** The pattern ["*"] matches every name. *)
Lemma fnmatch_star name_ : fnmatch.fnmatch name_ "*" = true.
Proof.
  unfold fnmatch.fnmatch, fnmatch.fnmatchcase.
  rewrite bool_decide_eq_true, is_Some_re_match, translate_star.
  change (is_Some (star_loop (accept Dot true (String.length name_)) true
                     (λ s, accept EndZ false (String.length name_) s Some)
                     (String.length name_) name_)).
  apply dot_star_some; [lia|].
  exists name_, "". rewrite str_app_empty_r. split; [reflexivity|].
  split; [by left | simpl; by eauto].
Qed.



Section Subglob.

Variables (self : loc) (b : PyNameObj) (v : pyobj) (pattern : string).

(** The members that the loop keeps, and the instance it makes of one. *)
Definition matching (info : list (string * pyobj)) : list (string * pyobj) :=
  filter (λ m, fnmatch.fnmatch m.1 pattern = true) info.

Definition child (m : string * pyobj) : PyNameObj :=
  {| _prefix := Str.rstrip "."%char (full_name b (ostr v)); obj := m.2 |}.

Hypothesis Hident : odict (obj b) !! "__name__" = Some v.


End Subglob.





Example subglob_members :
  inspect.getmembers Case1 = [ ("helper", helper); ("test_add", test_method) ]
  ∧ hasattr Case1 "__name__" = true
  ∧ matching "test*" (inspect.getmembers Case1) = [ ("test_add", test_method) ]
  ∧ obj <$> heap (PyName.subglob 0 "*" with_case1).2
    = [ Case1; helper; test_method ].
Proof. repeat split; vm_compute; reflexivity. Qed.



(** * Further properties *)

(** ** Needles without wildcards *)

(** A needle in which no character opens a wildcard. *)
Fixpoint literal (g : string) : bool :=
  match g with
  | "" => true
  | String c rest =>
      negb (bool_decide (c = "*"%char)) && negb (bool_decide (c = "?"%char))
      && negb (bool_decide (c = "["%char)) && literal rest
  end.

Fixpoint lits (g : string) : list regex :=
  match g with
  | "" => []
  | String c rest => Lit c :: lits rest
  end.

Lemma tokens_literal g prev_star :
  literal g = true →
  fnmatch.tokens 0 prev_star g = fnmatch.Piece <$> lits g.
Proof.
  revert prev_star. induction g as [|c rest IH]; intros prev_star Hg; [reflexivity|].
  simpl in Hg.
  apply andb_true_iff in Hg as [[[H1 H2]%andb_true_iff H3]%andb_true_iff Hrest].
  apply negb_true_iff, bool_decide_eq_false in H1, H2, H3.
  simpl. rewrite !decide_False by assumption. simpl. by rewrite IH.
Qed.

Lemma stars_pieces l : fnmatch.stars (fnmatch.Piece <$> l) = (l, None).
Proof.
  induction l as [|r l IH]; [reflexivity|].
  change (fnmatch.stars (fnmatch.Piece <$> r :: l))
    with (let '(fixed, after) := fnmatch.stars (fnmatch.Piece <$> l) in
          (r :: fixed, after)).
  by rewrite IH.
Qed.

Lemma body_literal g : literal g = true → fnmatch.body g = fnmatch.cat_all (lits g).
Proof.
  intros Hg. unfold fnmatch.body.
  rewrite (tokens_literal _ _ Hg), stars_pieces. simpl. by rewrite app_nil_r.
Qed.

Lemma accept_lits g d n s (k : string → option string) :
  is_Some (accept (fnmatch.cat_all (lits g)) d n s k)
  ↔ ∃ s', s = g ++ s' ∧ is_Some (k s').
Proof.
  revert s. induction g as [|c rest IH]; intros s; simpl.
  - split; [intros H; by exists s | by intros (s' & -> & H)].
  - destruct s as [|a s].
    + split; [by intros [? ?] | by intros (s' & ? & _)].
    + destruct (decide (a = c)) as [->|Hne].
      * rewrite IH. split.
        -- intros (s' & -> & H). by exists s'.
        -- intros (s' & [= ->] & H). by exists s'.
      * split; [by intros [? ?] | intros (s' & [= ? _] & _); contradiction].
Qed.

(** A needle without wildcards matches, as a glob, exactly itself. *)
Lemma fnmatchcase_literal s g :
  literal g = true → fnmatch.fnmatchcase s g = true ↔ s = g.
Proof.
  intros Hg. unfold fnmatch.fnmatchcase.
  rewrite bool_decide_eq_true, is_Some_re_match.
  unfold fnmatch.translate. rewrite (body_literal _ Hg). cbn [accept].
  rewrite accept_lits. split.
  - intros (s' & -> & H). destruct (bool_decide (s' = "")) eqn:E; [|by destruct H].
    apply bool_decide_eq_true in E as ->. by rewrite str_app_empty_r.
  - intros ->. exists "". rewrite str_app_empty_r. split; [reflexivity|].
    simpl. by eauto.
Qed.

Lemma glob_match_plain h g :
  literal g = true →
  is_Some (PyName.glob_match h g)
  ↔ h = g ∨ ∃ x, h = x ++ "." ++ g ∧ no_newline x.
Proof.
  intros Hg. rewrite glob_match_some, (fnmatchcase_literal _ _ Hg).
  apply or_iff_compat_l. split.
  - intros (x & y & -> & Hx & ->%(fnmatchcase_literal _ _ Hg)). by exists x.
  - intros (x & -> & Hx). exists x, g. split; [reflexivity|].
    split; [exact Hx | by apply fnmatchcase_literal].
Qed.

(** X1: for a needle without wildcard characters ([*], [?], [[]]),
    [glob_match] is truthy exactly when the haystack is the needle, or ends
    with a dot followed by the needle after a part without line feed. *)
Theorem glob_match_literal (h g : string) :
  literal g = true →
  is_Some (PyName.glob_match h g)
  ↔ h = g ∨ ∃ x, h = x ++ "." ++ g ∧ no_newline x.
Proof. exact (glob_match_plain h g). Qed.

Lemma glob_match_literal_witness :
  is_Some (PyName.glob_match "foo.bar.Case1" "bar.Case1")
  ↔ "foo.bar.Case1" = "bar.Case1"
    ∨ ∃ x, "foo.bar.Case1" = x ++ "." ++ "bar.Case1" ∧ no_newline x.
Proof. apply (glob_match_literal "foo.bar.Case1" "bar.Case1"). reflexivity. Defined.

(** X2: the needle ["*"] matches every haystack. *)
Theorem glob_match_star_all (h : string) : is_Some (PyName.glob_match h "*").
Proof. apply glob_match_some. left. apply fnmatch_star. Qed.

(** X3: a match survives the addition of outer components: if
    [glob_match(h, g)] is truthy, so is [glob_match(p + "." + h, g)] for
    every [p] (and [h]) without line feed. *)
Theorem glob_match_under_prefix (p h g : string) :
  no_newline p → no_newline h →
  is_Some (PyName.glob_match h g) →
  is_Some (PyName.glob_match (p ++ "." ++ h) g).
Proof.
  intros Hp Hh [Hm|(x & y & -> & Hx & Hy)]%glob_match_some;
    apply glob_match_some; right.
  - by exists p, h.
  - exists (p ++ "." ++ x), y. split; [by rewrite !str_app_assoc|].
    split; [|exact Hy]. unfold no_newline in *.
    rewrite !contains_app, Hp, Hx. reflexivity.
Qed.

Lemma glob_match_under_prefix_witness :
  is_Some (PyName.glob_match ("pkg" ++ "." ++ "bar.Case1") "Case*").
Proof.
  apply (glob_match_under_prefix "pkg" "bar.Case1" "Case*");
    [reflexivity | reflexivity | vm_compute; by eauto].
Defined.

(** What the matcher returns is what a continuation returned. *)
Lemma star_loop_returns (step : string → (string → option string) → option string)
    greedy (k : string → option string) fuel s x :
  (∀ s k' x, step s k' = Some x → ∃ y, k' y = Some x) →
  star_loop step greedy k fuel s = Some x → ∃ y, k y = Some x.
Proof.
  intros Hstep. revert s.
  assert (Hor : ∀ a b : option string,
             orelse a b = Some x → a = Some x ∨ b = Some x).
  { intros [a|] b; simpl; eauto. }
  induction fuel as [|fuel IH]; intros s; cbn [star_loop]; destruct greedy;
    intros [H|H]%Hor; try discriminate; eauto;
    apply Hstep in H as (y & H); destruct (bool_decide _); try discriminate;
    by apply IH in H.
Qed.

Lemma accept_returns r : ∀ d n s (k : string → option string) x,
  accept r d n s k = Some x → ∃ y, k y = Some x.
Proof.
  induction r as [|c| |neg items| |a IHa b IHb|a IHa b IHb|g a IHa|a IHa|a IHa|a IHa| | |];
    simpl; intros d n s k x H.
  - by eauto.
  - destruct s; [discriminate|]. destruct (decide _); [by eauto | discriminate].
  - destruct s; [discriminate|]. destruct (_ || _); [by eauto | discriminate].
  - destruct s; [discriminate|]. destruct (xorb _ _); [by eauto | discriminate].
  - discriminate.
  - apply IHa in H as (y & H). by apply IHb in H.
  - destruct (accept a d n s k) eqn:E; simpl in H.
    + injection H as ->. by apply IHa in E.
    + by apply IHb in H.
  - eapply star_loop_returns; [|exact H]. intros s0 k' x0. apply IHa.
  - destruct (accept a d n s Some); [by eauto | discriminate].
  - by apply IHa in H.
  - by apply IHa in H.
  - destruct (bool_decide _); [by eauto | discriminate].
  - destruct (_ || _); [by eauto | discriminate].
  - destruct (bool_decide _); [by eauto | discriminate].
Qed.

Lemma translate_rest pat d n s x :
  accept (fnmatch.translate pat) d n s at_eol = Some x → x = "".
Proof.
  unfold fnmatch.translate. cbn [accept].
  intros (y & H)%accept_returns.
  destruct (bool_decide (y = "")) eqn:E; [|discriminate].
  apply bool_decide_eq_true in E as ->. vm_compute in H. congruence.
Qed.

(** X4: a truthy result of [glob_match] is a match of the whole haystack:
    the match ends at [len(haystack)]. *)
Theorem glob_match_spans_haystack (h g : string) (e : nat) :
  PyName.glob_match h g = Some e → e = String.length h.
Proof.
  unfold PyName.glob_match, re_match. rewrite accept_reg_pattern.
  destruct (orelse _ _) as [rest|] eqn:E; [|discriminate].
  intros [= <-]. assert (rest = "") as ->; [|simpl; lia].
  destruct (accept (fnmatch.translate g) false (String.length h) h at_eol) eqn:E1;
    unfold orelse in E.
  - injection E as ->. by apply translate_rest in E1.
  - apply star_loop_returns in E as (y & Hy).
    + destruct y as [|a y]; cbn [accept] in Hy; [discriminate|].
      destruct (decide (a = "."%char)); [|discriminate].
      exact (translate_rest g false (String.length h) y rest Hy).
    + intros s0 k' x0. apply (accept_returns Dot false (String.length h)).
Qed.

Lemma glob_match_spans_haystack_witness : 13 = String.length "foo.bar.Case1".
Proof.
  apply (glob_match_spans_haystack "foo.bar.Case1" "bar.Case1" 13).
  vm_compute. reflexivity.
Defined.

(** ** [match] *)

Lemma match_ok σ self b v g :
  heap σ !! self = Some b →
  odict (obj b) !! "__name__" = Some v →
  PyName.match_ self g σ = (inr (PyName.glob_match (full_name b (ostr v)) g), σ).
Proof.
  intros Hb Hv. unfold PyName.match_.
  by rewrite (bind_inr _ _ _ _ _ (name_ok _ _ _ _ Hb Hv)).
Qed.

(** X5: for a pattern without wildcard characters, [match] returns a truthy
    value exactly when the name of the instance is the pattern or ends with
    a dot followed by the pattern (after a part without line feed); it
    raises nothing and leaves the state as it was. *)
Theorem match_literal (σ : interp) (self : loc) (b : PyNameObj) (v : pyobj)
    (g : string) :
  heap σ !! self = Some b →
  odict (obj b) !! "__name__" = Some v →
  literal g = true →
  ∃ r, PyName.match_ self g σ = (inr r, σ)
       ∧ (is_Some r
          ↔ full_name b (ostr v) = g
            ∨ ∃ x, full_name b (ostr v) = x ++ "." ++ g ∧ no_newline x).
Proof.
  intros Hb Hv Hg. eexists. split; [exact (match_ok _ _ _ _ _ Hb Hv)|].
  by apply glob_match_plain.
Qed.

Lemma match_literal_witness :
  ∃ r, PyName.match_ 0 "bar.Case1" with_case1 = (inr r, with_case1)
       ∧ (is_Some r
          ↔ "foo.bar.Case1" = "bar.Case1"
            ∨ ∃ x, "foo.bar.Case1" = x ++ "." ++ "bar.Case1" ∧ no_newline x).
Proof.
  exact (match_literal with_case1 0 {| _prefix := "foo.bar"; obj := Case1 |}
           (py_str "Case1") "bar.Case1" eq_refl eq_refl eq_refl).
Defined.

(** X6: an instance whose stored prefix has no line feed matches its own
    identifier, when the identifier has no wildcard characters. *)
Theorem match_own_identifier (σ : interp) (self : loc) (b : PyNameObj) (v : pyobj) :
  heap σ !! self = Some b →
  odict (obj b) !! "__name__" = Some v →
  literal (ostr v) = true →
  no_newline (_prefix b) →
  ∃ e, PyName.match_ self (ostr v) σ = (inr (Some e), σ).
Proof.
  intros Hb Hv Hg Hp. rewrite (match_ok _ _ _ _ _ Hb Hv).
  assert (H : is_Some (PyName.glob_match (full_name b (ostr v)) (ostr v))).
  { apply (glob_match_plain _ _ Hg). right. by exists (_prefix b). }
  destruct H as [e ->]. by exists e.
Qed.

Lemma match_own_identifier_witness :
  ∃ e, PyName.match_ 0 "Case1" with_case1 = (inr (Some e), with_case1).
Proof.
  exact (match_own_identifier with_case1 0 {| _prefix := "foo.bar"; obj := Case1 |}
           (py_str "Case1") eq_refl eq_refl eq_refl eq_refl).
Defined.

(** X7: [match] on an instance whose subject has no [__name__] raises the
    [AttributeError] of that lookup, whatever the pattern. *)
Theorem match_raises_without_identifier (σ : interp) (self : loc) (b : PyNameObj)
    (g : string) :
  heap σ !! self = Some b →
  odict (obj b) !! "__name__" = None →
  PyName.match_ self g σ = (inl (AttributeError (obj b) "__name__"), σ).
Proof.
  intros Hb Hn. unfold PyName.match_.
  by rewrite (bind_inl _ _ _ _ _ (name_no_identifier _ _ _ Hb Hn)).
Qed.

Lemma match_raises_without_identifier_witness :
  PyName.match_ 0 "*" with_anonymous
  = (inl (AttributeError Anonymous "__name__"), with_anonymous).
Proof.
  exact (match_raises_without_identifier with_anonymous 0
           {| _prefix := "foo"; obj := Anonymous |} "*" eq_refl eq_refl).
Defined.

(** ** The constructor and [sub] *)

Lemma rstrip_run c k : Str.rstrip c (run_of c k) = "".
Proof. apply rstrip_empty_iff. by exists k. Qed.

Lemma rstrip_app_run c s k : Str.rstrip c (s ++ run_of c k) = Str.rstrip c s.
Proof.
  induction s as [|a s IH]; simpl.
  - apply rstrip_run.
  - by rewrite IH.
Qed.

(** X8: the constructor ignores trailing dots: prefixes that differ by dots
    at the end give the same fields, so the same name. *)
Theorem new_ignores_trailing_dots (σ : interp) (p : string) (k : nat) (o : pyobj) :
  PyName.new (p ++ run_of "."%char k) o σ = PyName.new p o σ
  ∧ (PyName.new (p ++ run_of "."%char k) o ≫= PyName.name) σ
    = (PyName.new p o ≫= PyName.name) σ.
Proof.
  assert (H : PyName.new (p ++ run_of "."%char k) o σ = PyName.new p o σ).
  { by rewrite !new_spec, rstrip_app_run. }
  split; [exact H|]. unfold mbind, M_bind. by rewrite H.
Qed.

(** X9: [sub] followed by [name]: when the parent's identifier is not empty
    and does not end in a dot, and the value of the attribute has an
    identifier of its own, the name of the child is the name of the parent,
    a dot, and the identifier of the value; the name of the attribute does
    not appear in it. *)
Theorem sub_then_name (σ : interp) (self : loc) (b : PyNameObj) (v o w : pyobj)
    (a : string) :
  heap σ !! self = Some b →
  odict (obj b) !! "__name__" = Some v →
  ostr v ≠ "" → no_trailing_dot (ostr v) →
  odict (obj b) !! a = Some o →
  odict o !! "__name__" = Some w →
  ((PyName.sub self a ≫= λ r,
      match r with
      | Some child => PyName.name child
      | None => mret ""
      end) σ).1
  = inr (full_name b (ostr v) ++ "." ++ ostr w).
Proof.
  intros Hb Hv Hne Hl Ha Hw.
  rewrite (bind_inr _ _ _ _ _ (sub_present _ _ _ _ _ _ Hb Hv Ha)).
  rewrite (full_name_strip b _ Hne Hl).
  erewrite (name_ok _ (List.length (heap σ))
              {| _prefix := full_name b (ostr v); obj := o |} w);
    [reflexivity | apply lookup_new | exact Hw].
Qed.

Definition renamed : pyobj := named 6 "Suite" {[ "alias" := test_method ]}.

Lemma sub_then_name_witness :
  ((PyName.sub 0 "alias" ≫= λ r,
      match r with
      | Some child => PyName.name child
      | None => mret ""
      end) (PyName.new "pkg" renamed empty_interp).2).1
  = inr ("pkg.Suite" ++ "." ++ "test_add").
Proof.
  apply (sub_then_name (PyName.new "pkg" renamed empty_interp).2 0
           {| _prefix := "pkg"; obj := renamed |} (py_str "Suite") test_method
           (py_str "test_add") "alias");
    try reflexivity; [discriminate | unfold no_trailing_dot; simpl; discriminate].
Defined.

(** ** [subglob] without matches or without identifier *)

Lemma subglob_loop_no_match self pattern info out σ :
  matching pattern info = [] →
  PyName.subglob_loop self pattern info out σ = (inr out, σ).
Proof.
  induction info as [|[name_ member] rest IH]; [reflexivity|].
  unfold matching. cbn [PyName.subglob_loop].
  destruct (fnmatch.fnmatch name_ pattern) eqn:Hm.
  - by rewrite filter_cons_True by exact Hm.
  - rewrite filter_cons_False by (simpl; rewrite Hm; discriminate). exact IH.
Qed.

Lemma subglob_loop_no_identifier self b pattern info out σ :
  heap σ !! self = Some b →
  odict (obj b) !! "__name__" = None →
  matching pattern info ≠ [] →
  PyName.subglob_loop self pattern info out σ
  = (inl (AttributeError (obj b) "__name__"), σ).
Proof.
  intros Hb Hn. induction info as [|[name_ member] rest IH]; [done|].
  unfold matching. cbn [PyName.subglob_loop].
  destruct (fnmatch.fnmatch name_ pattern) eqn:Hm.
  - intros _. by rewrite (bind_inl _ _ _ _ _ (name_no_identifier _ _ _ Hb Hn)).
  - rewrite filter_cons_False by (simpl; rewrite Hm; discriminate). exact IH.
Qed.

Lemma subglob_empty σ self b pattern :
  heap σ !! self = Some b →
  matching pattern (inspect.getmembers (obj b)) = [] →
  PyName.subglob self pattern σ = (inr ∅, σ).
Proof.
  intros Hb Hm. unfold PyName.subglob.
  rewrite (bind_inr _ _ _ _ _ (deref_ok _ _ _ Hb)).
  by apply subglob_loop_no_match.
Qed.

(** X10: when no member of the subject has a name that matches the pattern,
    [subglob] returns the empty set and allocates nothing; it does not look
    up the identifier, so it does not raise even when the subject has no
    [__name__]. *)
Theorem subglob_no_match (σ : interp) (self : loc) (b : PyNameObj) (pattern : string) :
  heap σ !! self = Some b →
  matching pattern (inspect.getmembers (obj b)) = [] →
  PyName.subglob self pattern σ = (inr ∅, σ).
Proof. exact (subglob_empty σ self b pattern). Qed.

Lemma subglob_no_match_witness :
  PyName.subglob 0 "setUp*" with_anonymous = (inr ∅, with_anonymous).
Proof.
  apply (subglob_no_match with_anonymous 0 {| _prefix := "foo"; obj := Anonymous |}).
  - reflexivity.
  - vm_compute. reflexivity.
Defined.

(** X11: when the subject has no [__name__] and some member has a name that
    matches the pattern, [subglob] raises the [AttributeError] of the lookup
    of [__name__] and allocates nothing. *)
Theorem subglob_raises_without_identifier (σ : interp) (self : loc) (b : PyNameObj)
    (pattern : string) :
  heap σ !! self = Some b →
  odict (obj b) !! "__name__" = None →
  matching pattern (inspect.getmembers (obj b)) ≠ [] →
  PyName.subglob self pattern σ = (inl (AttributeError (obj b) "__name__"), σ).
Proof.
  intros Hb Hn Hm. unfold PyName.subglob.
  rewrite (bind_inr _ _ _ _ _ (deref_ok _ _ _ Hb)).
  by apply (subglob_loop_no_identifier self b).
Qed.

Lemma subglob_raises_without_identifier_witness :
  PyName.subglob 0 "test*" with_anonymous
  = (inl (AttributeError Anonymous "__name__"), with_anonymous).
Proof.
  apply (subglob_raises_without_identifier with_anonymous 0
           {| _prefix := "foo"; obj := Anonymous |}).
  - reflexivity.
  - reflexivity.
  - vm_compute. discriminate.
Defined.

(** ** [subglob] on a plain name *)







(** ** The result of [to_pyname] *)

Lemma contains_replace_same a b s : a ≠ b → Str.contains a (Str.replace a b s) = false.
Proof.
  intros Hab. induction s as [|c s IH]; [reflexivity|]. simpl. rewrite IH.
  destruct (decide (c = a)); rewrite bool_decide_eq_false_2;
    [reflexivity | congruence | reflexivity | congruence].
Qed.

Lemma contains_replace_other c a b s :
  c ≠ a → c ≠ b → Str.contains c (Str.replace a b s) = Str.contains c s.
Proof.
  intros Ha Hb. induction s as [|x s IH]; [reflexivity|]. simpl. rewrite IH.
  f_equal. destruct (decide (x = a)) as [->|]; [|reflexivity].
  rewrite !bool_decide_eq_false_2; [reflexivity | congruence | congruence].
Qed.

Lemma split_replace_sep a b s :
  a ≠ b → Str.contains b s = false →
  Str.split b (Str.replace a b s) = Str.split a s.
Proof.
  intros Hab. induction s as [|x s IH]; [reflexivity|]. simpl.
  intros [Hx Hs]%orb_false_iff. apply bool_decide_eq_false in Hx.
  rewrite (IH Hs). destruct (decide (x = a)) as [->|Hxa].
  - by rewrite decide_True.
  - by rewrite decide_False.
Qed.

Lemma split_replace_other sep a b s :
  a ≠ sep → b ≠ sep →
  Str.split sep (Str.replace a b s) = Str.replace a b <$> Str.split sep s.
Proof.
  intros Ha Hb. induction s as [|x s IH]; [reflexivity|]. simpl. rewrite IH.
  destruct (decide (x = a)) as [->|Hxa].
  - rewrite !decide_False by congruence.
    destruct (Str.split sep s); simpl; by rewrite ?decide_True.
  - destruct (decide (x = sep)); [reflexivity|].
    destruct (Str.split sep s); simpl; by rewrite ?decide_False.
Qed.

Lemma to_pyname_inr fname σ r σ' :
  PyName.to_pyname fname σ = (inr r, σ') →
  ∃ root,
    posixpath.splitext (expanded (home_env σ) (posixpath.normpath fname)) = (root, ".py")
    ∧ Str.contains "."%char (Str.replace "-"%char "_"%char root) = false
    ∧ Str.contains ":"%char (Str.replace "-"%char "_"%char root) = false
    ∧ r = Str.replace "/"%char "."%char (Str.replace "-"%char "_"%char root).
Proof.
  rewrite to_pyname_spec. unfold outcome.
  destruct (nul_user _); [discriminate|]. unfold convert.
  destruct (posixpath.splitext _) as [root ext].
  destruct (decide (ext = ".py")) as [->|Hext].
  - rewrite bool_decide_eq_false_2 by (intros H; by apply H).
    destruct (Str.contains "."%char _) eqn:Hd; [discriminate|].
    destruct (Str.contains ":"%char _) eqn:Hc; [discriminate|].
    simpl. intros [= <- _]. by exists root.
  - by rewrite bool_decide_eq_true_2.
Qed.

(** X13: a name returned by [to_pyname] contains no slash, no hyphen and no
    colon, and its dot-separated components are the slash-separated
    components of the expanded, normalised path without its [.py], with
    hyphens replaced by underscores. *)
Theorem to_pyname_result_shape (σ σ' : interp) (fname r : string) :
  PyName.to_pyname fname σ = (inr r, σ') →
  Str.contains "/"%char r = false
  ∧ Str.contains "-"%char r = false
  ∧ Str.contains ":"%char r = false
  ∧ ∃ root,
      posixpath.splitext (expanded (home_env σ) (posixpath.normpath fname))
      = (root, ".py")
      ∧ Str.split "."%char r
        = Str.replace "-"%char "_"%char <$> Str.split "/"%char root.
Proof.
  intros (root & Hsplit & Hd & Hc & ->)%to_pyname_inr.
  split; [by apply contains_replace_same|].
  split; [rewrite contains_replace_other by done; by apply contains_replace_same|].
  split; [by rewrite contains_replace_other|].
  exists root. split; [exact Hsplit|].
  rewrite split_replace_sep by done. by apply split_replace_other.
Qed.

Lemma to_pyname_result_shape_witness :
  Str.contains "/"%char "a_b.c_d.mod_a" = false
  ∧ Str.contains "-"%char "a_b.c_d.mod_a" = false
  ∧ Str.contains ":"%char "a_b.c_d.mod_a" = false
  ∧ ∃ root,
      posixpath.splitext
        (expanded (home_env empty_interp) (posixpath.normpath "a-b//c_d/./mod-a.py"))
      = (root, ".py")
      ∧ Str.split "."%char "a_b.c_d.mod_a"
        = Str.replace "-"%char "_"%char <$> Str.split "/"%char root.
Proof.
  apply (to_pyname_result_shape empty_interp empty_interp "a-b//c_d/./mod-a.py").
  reflexivity.
Defined.

(** X14: when the normalised path does not start with a tilde, the outcome
    of [to_pyname] is the same in every state: the environment is not read. *)
Theorem to_pyname_without_tilde (σ1 σ2 : interp) (fname : string) :
  Str.startswith "~" (posixpath.normpath fname) = false →
  (PyName.to_pyname fname σ1).1 = (PyName.to_pyname fname σ2).1.
Proof.
  intros H. rewrite !to_pyname_spec. cbn [fst].
  by rewrite !(outcome_no_tilde _ _ H).
Qed.

Definition home_interp : interp :=
  {| environ := {[ "HOME" := "/home/u" ]}; pw_uid := Some "/root";
     pw_nam := {[ "root" := "/root" ]}; heap := [] |}.

Lemma to_pyname_without_tilde_witness :
  (PyName.to_pyname "pkg/mod-a.py" empty_interp).1
  = (PyName.to_pyname "pkg/mod-a.py" home_interp).1.
Proof.
  apply (to_pyname_without_tilde empty_interp home_interp "pkg/mod-a.py").
  reflexivity.
Defined.

Lemma convert_value fname fname' path r :
  convert fname path = inr r → convert fname' path = inr r.
Proof.
  unfold convert. destruct (posixpath.splitext path) as [root ext].
  destruct (bool_decide (ext ≠ ".py")); [discriminate|].
  by destruct (_ || _).
Qed.

Lemma normpath_dot_slash p :
  Str.startswith "/" p = false →
  posixpath.normpath ("./" ++ p) = posixpath.normpath p.
Proof.
  intros Hp. destruct p as [|a p]; [reflexivity|].
  unfold posixpath.normpath. rewrite Hp.
  change ("./" ++ String a p) with (String "."%char (String "/"%char (String a p))).
  rewrite !bool_decide_eq_false_2 by discriminate.
  change (Str.startswith "/" (String "."%char (String "/"%char (String a p))))
    with false.
  change (Str.split "/"%char (String "."%char (String "/"%char (String a p))))
    with (match "" :: Str.split "/"%char (String a p) with
          | u :: t => String "."%char u :: t
          | [] => ["."]
          end).
  reflexivity.
Qed.

(** X15: a leading ["./"] before a relative path changes nothing: the call
    returns a name with it exactly when it returns that name without it. *)
Theorem to_pyname_ignores_dot_slash (σ : interp) (p r : string) :
  Str.startswith "/" p = false →
  (PyName.to_pyname ("./" ++ p) σ).1 = inr r ↔ (PyName.to_pyname p σ).1 = inr r.
Proof.
  intros Hp. rewrite !to_pyname_spec. unfold outcome.
  rewrite (normpath_dot_slash _ Hp). cbn [fst].
  destruct (nul_user _); [done|]. split; apply convert_value.
Qed.

Lemma to_pyname_ignores_dot_slash_witness :
  (PyName.to_pyname ("./" ++ "pkg/mod-a.py") empty_interp).1 = inr "pkg.mod_a"
  ↔ (PyName.to_pyname "pkg/mod-a.py" empty_interp).1 = inr "pkg.mod_a".
Proof.
  apply (to_pyname_ignores_dot_slash empty_interp "pkg/mod-a.py" "pkg.mod_a").
  reflexivity.
Defined.

Lemma normpath_absolute f :
  Str.startswith "/" f = true → ∃ rest, posixpath.normpath f = String "/"%char rest.
Proof.
  intros Hf. unfold posixpath.normpath. rewrite Hf.
  destruct f as [|a f]; [discriminate|].
  rewrite bool_decide_eq_false_2 by discriminate.
  destruct (_ && _); cbv zeta; simpl; by eexists.
Qed.

Lemma rfind_from_head c s pos : (0 ≤ Str.rfind_from c (String c s) pos)%Z.
Proof.
  simpl. destruct (bool_decide _) eqn:E.
  - by apply bool_decide_eq_true in E.
  - rewrite decide_True by reflexivity. lia.
Qed.

(** X16: an absolute path gives a name with a leading dot. *)
Theorem to_pyname_absolute_leading_dot (σ σ' : interp) (fname r : string) :
  Str.startswith "/" fname = true →
  PyName.to_pyname fname σ = (inr r, σ') →
  Str.startswith "." r = true.
Proof.
  intros Habs (root & Hsplit & _ & _ & ->)%to_pyname_inr.
  destruct (normpath_absolute _ Habs) as [rest Hn]. rewrite Hn in Hsplit.
  change (expanded (home_env σ) (String "/"%char rest))
    with (String "/"%char rest) in Hsplit.
  unfold posixpath.splitext in Hsplit.
  assert (Hsep : (0 ≤ Str.rfind "/"%char (String "/"%char rest))%Z)
    by apply rfind_from_head.
  set (d := Str.rfind "."%char (String "/"%char rest)) in *.
  set (sp := Str.rfind "/"%char (String "/"%char rest)) in *.
  destruct (_ && _) eqn:Hcond; [|discriminate].
  apply andb_true_iff in Hcond as [Hgt%bool_decide_eq_true _].
  injection Hsplit as <- _. unfold Str.slice.
  destruct (Z.to_nat d) as [|k] eqn:Hk; [lia|]. simpl.
  by destruct (Str.replace _ _ _).
Qed.

Lemma to_pyname_absolute_leading_dot_witness :
  Str.startswith "." ".usr.lib.python.unit_test" = true.
Proof.
  apply (to_pyname_absolute_leading_dot empty_interp empty_interp
           "/usr/lib/python/unit-test.py" ".usr.lib.python.unit_test");
    reflexivity.
Defined.


(** ** [to_pyname] on plain paths *)

Lemma rfind_from_absent c t pos :
  Str.contains c t = false → Str.rfind_from c t pos = (-1)%Z.
Proof.
  revert pos. induction t as [|a t IH]; intros pos; [reflexivity|]. simpl.
  intros [Ha Ht]%orb_false_iff. apply bool_decide_eq_false in Ha.
  rewrite (IH _ Ht). rewrite bool_decide_eq_false_2 by lia.
  by rewrite decide_False.
Qed.

Lemma rfind_from_negative c t pos :
  ¬ (0 ≤ Str.rfind_from c t pos)%Z → Str.rfind_from c t pos = (-1)%Z.
Proof.
  revert pos. induction t as [|a t IH]; intros pos; [reflexivity|]. simpl.
  destruct (bool_decide _) eqn:E.
  - apply bool_decide_eq_true in E. by intros [].
  - destruct (decide (a = c)); [lia | reflexivity].
Qed.

Lemma rfind_from_app c s t pos :
  Str.rfind_from c (s ++ t) pos
  = if bool_decide (0 ≤ Str.rfind_from c t (pos + String.length s))%Z
    then Str.rfind_from c t (pos + String.length s)
    else Str.rfind_from c s pos.
Proof.
  revert pos. induction s as [|a s IH]; intros pos; simpl.
  - rewrite Nat.add_0_r. destruct (bool_decide _) eqn:E; [reflexivity|].
    apply bool_decide_eq_false in E. by apply rfind_from_negative.
  - rewrite IH. replace (S pos + String.length s) with (pos + S (String.length s)) by lia.
    destruct (bool_decide (0 ≤ Str.rfind_from c t _)%Z) eqn:E; [by rewrite E | reflexivity].
Qed.

Lemma rfind_from_last c s t pos :
  Str.contains c t = false →
  Str.rfind_from c (s ++ String c t) pos = Z.of_nat (pos + String.length s).
Proof.
  intros Ht. rewrite rfind_from_app. simpl.
  rewrite (rfind_from_absent _ _ _ Ht).
  rewrite (bool_decide_eq_false_2 (0 ≤ -1)%Z) by lia.
  rewrite decide_True by reflexivity.
  by rewrite bool_decide_eq_true_2 by lia.
Qed.

Lemma get_app_length s a t : String.get (String.length s) (s ++ String a t) = Some a.
Proof. induction s as [|b s IH]; [reflexivity | exact IH]. Qed.

Lemma substring_app_l s t : String.substring 0 (String.length s) (s ++ t) = s.
Proof.
  induction s as [|a s IH]; simpl; [by destruct t | by rewrite IH].
Qed.

Lemma substring_app_r s t :
  String.substring (String.length s) (String.length t) (s ++ t) = t.
Proof.
  induction s as [|a s IH]; simpl; [|exact IH].
  induction t as [|b t IHt]; simpl; [reflexivity | by rewrite IHt].
Qed.

(** The directory part of a path: empty, or ending in a slash. *)
Definition dir_like (d : string) : Prop := d = "" ∨ ∃ d', d = d' ++ "/".

Lemma rfind_sep_dir d t :
  dir_like d → Str.contains "/"%char t = false →
  (Str.rfind "/"%char (d ++ t) + 1)%Z = Z.of_nat (String.length d).
Proof.
  intros [->|[d' ->]] Ht; unfold Str.rfind.
  - simpl. by rewrite rfind_from_absent.
  - rewrite str_app_assoc. change ("/" ++ t) with (String "/"%char t).
    rewrite (rfind_from_last _ _ _ _ Ht), str_length_app. simpl. lia.
Qed.

(** [splitext] on a directory part, a stem that does not start with a dot
    and an extension. *)
Lemma splitext_stem d a l e :
  dir_like d → a ≠ "."%char →
  Str.contains "/"%char (String a l ++ String "."%char e) = false →
  Str.contains "."%char e = false →
  posixpath.splitext (d ++ String a l ++ String "."%char e)
  = (d ++ String a l, String "."%char e).
Proof.
  intros Hd Ha Hsl He. unfold posixpath.splitext.
  pose proof (rfind_sep_dir d _ Hd Hsl) as Hsep.
  assert (Hdot : Str.rfind "."%char (d ++ String a l ++ String "."%char e)
                 = Z.of_nat (String.length (d ++ String a l))).
  { rewrite <- str_app_assoc. unfold Str.rfind. by rewrite rfind_from_last. }
  rewrite Hdot, Hsep. rewrite str_length_app in *. simpl String.length in *.
  rewrite bool_decide_eq_true_2 by lia.
  replace (Z.to_nat (Z.of_nat (String.length d + S (String.length l))
                     - Z.of_nat (String.length d)))
    with (S (String.length l)) by lia.
  rewrite Nat2Z.id. cbn [posixpath.has_stem].
  assert (Hget : String.get (String.length d) (d ++ String a l ++ String "."%char e)
                 = Some a) by apply (get_app_length d a (l ++ String "."%char e)).
  rewrite Hget, bool_decide_eq_true_2 by congruence. cbn [andb].
  rewrite Nat2Z.id.
  replace (String.length d + S (String.length l))
    with (String.length (d ++ String a l)) by (by rewrite str_length_app).
  rewrite <- str_app_assoc. unfold Str.slice, Str.slice_from.
  rewrite Nat.sub_0_r, substring_app_l. f_equal.
  rewrite (str_length_app (d ++ String a l)).
  replace (String.length (d ++ String a l) + String.length (String "."%char e)
           - String.length (d ++ String a l))
    with (String.length (String "."%char e)) by lia.
  apply substring_app_r.
Qed.

(** A component that [normpath] keeps as it is. *)
Definition component (c : string) : Prop :=
  c ≠ "" ∧ Str.contains "/"%char c = false ∧ c ≠ "." ∧ c ≠ "..".

(** A component without dot and colon: a package or module name as a file
    name, hyphens allowed. *)
Definition plain (c : string) : Prop :=
  c ≠ "" ∧ Str.contains "/"%char c = false ∧ Str.contains "."%char c = false
  ∧ Str.contains ":"%char c = false.

Lemma plain_component c : plain c → component c.
Proof.
  intros (Hne & Hs & Hd & _). repeat split; try done; intros ->; discriminate.
Qed.

Lemma split_absent c s : Str.contains c s = false → Str.split c s = [s].
Proof.
  induction s as [|a s IH]; [reflexivity|]. simpl.
  intros [Ha Hs]%orb_false_iff. apply bool_decide_eq_false in Ha.
  rewrite decide_False by exact Ha. by rewrite (IH Hs).
Qed.

Lemma split_join c (l : list string) :
  l ≠ [] → Forall (λ x, Str.contains c x = false) l →
  Str.split c (Str.join (String c "") l) = l.
Proof.
  intros Hne Hl. induction Hl as [|x l Hx Hl IH]; [done|].
  destruct l as [|y l]; [by apply split_absent|].
  change (Str.join (String c "") (x :: y :: l))
    with (x ++ String c (Str.join (String c "") (y :: l))).
  rewrite split_app, (split_absent _ _ Hx), IH by done. reflexivity.
Qed.

Lemma norm_step_keep n acc c :
  component c → posixpath.norm_step n acc c = (acc ++ [c])%list.
Proof.
  intros (Hne & _ & Hd & Hdd). unfold posixpath.norm_step, posixpath.is_in.
  rewrite bool_decide_eq_false_2.
  - by rewrite (bool_decide_eq_true_2 (c ≠ "..")).
  - intros [->|[->|[]%elem_of_nil]%elem_of_cons]%elem_of_cons; done.
Qed.

Lemma foldl_norm_step_keep n (l acc : list string) :
  Forall component l → foldl (posixpath.norm_step n) acc l = (acc ++ l)%list.
Proof.
  intros Hl. revert acc. induction Hl as [|c l Hc Hl IH]; intros acc; simpl.
  - by rewrite app_nil_r.
  - rewrite (norm_step_keep _ _ _ Hc), IH. by rewrite <- (assoc_L (++)).
Qed.

Lemma join_head sep c (l : list string) :
  c ≠ "" → ∃ a rest, Str.join sep (c :: l) = String a rest ∧ Str.first c = Some a.
Proof.
  destruct c as [|a c]; [done|]. intros _.
  destruct l; simpl; by eexists _, _.
Qed.

Lemma startswith_char p a s :
  Str.startswith (String p "") (String a s) = bool_decide (p = a).
Proof.
  unfold Str.startswith.
  change (String.prefix (String p "") (String a s))
    with (if ascii_dec p a then String.prefix "" s else false).
  destruct (ascii_dec p a) as [->|Hne].
  - rewrite bool_decide_eq_true_2 by reflexivity. by destruct s.
  - by rewrite bool_decide_eq_false_2.
Qed.

Lemma startswith_two p a b s :
  a ≠ b → Str.startswith (String p (String a "")) (String p (String b s)) = false.
Proof.
  intros Hab. unfold Str.startswith.
  change (String.prefix (String p (String a "")) (String p (String b s)))
    with (if ascii_dec p p
          then if ascii_dec a b then String.prefix "" s else false
          else false).
  destruct (ascii_dec p p); [|reflexivity].
  by destruct (ascii_dec a b).
Qed.

(** [normpath] leaves a path made of such components as it is. *)
Lemma normpath_components (absolute : bool) (l : list string) :
  l ≠ [] → Forall component l →
  posixpath.normpath ((if absolute then "/" else "") ++ Str.join "/" l)
  = (if absolute then "/" else "") ++ Str.join "/" l.
Proof.
  intros Hne Hl. destruct l as [|c l]; [done|].
  pose proof (Forall_inv Hl) as (Hc & Hcs & _).
  destruct (join_head "/" c l Hc) as (a & rest & Hj & Ha).
  assert (Hsl : a ≠ "/"%char).
  { destruct c as [|a' c]; [done|]. injection Ha as ->. simpl in Hcs.
    apply orb_false_iff in Hcs as [H%bool_decide_eq_false _]. exact H. }
  assert (Hsplit : Str.split "/"%char (Str.join "/" (c :: l)) = c :: l).
  { apply (split_join "/"%char); [done|]. eapply Forall_impl; [exact Hl|].
    by intros x (_ & ? & _). }
  unfold posixpath.normpath. destruct absolute.
  - change ("/" ++ Str.join "/" (c :: l)) with (String "/"%char (Str.join "/" (c :: l))).
    rewrite bool_decide_eq_false_2 by discriminate.
    assert (Hs1 : Str.startswith "/" (String "/"%char (Str.join "/" (c :: l))) = true).
    { by rewrite startswith_char, bool_decide_eq_true_2. }
    assert (Hs2 : Str.startswith "//" (String "/"%char (Str.join "/" (c :: l))) = false).
    { rewrite Hj. apply startswith_two. congruence. }
    rewrite Hs1, Hs2. cbn [andb].
    change (Str.split "/"%char (String "/"%char (Str.join "/" (c :: l))))
      with ("" :: Str.split "/"%char (Str.join "/" (c :: l))).
    rewrite Hsplit.
    change (foldl (posixpath.norm_step 1) [] ("" :: c :: l))
      with (foldl (posixpath.norm_step 1) [] (c :: l)).
    rewrite (foldl_norm_step_keep _ _ _ Hl). simpl app.
    change (Str.join "" (replicate 1 "/")) with "/".
    change ("/" ++ Str.join "/" (c :: l)) with (String "/"%char (Str.join "/" (c :: l))).
    by rewrite bool_decide_eq_false_2 by discriminate.
  - change ("" ++ Str.join "/" (c :: l)) with (Str.join "/" (c :: l)).
    assert (Hj0 : Str.join "/" (c :: l) ≠ "") by (rewrite Hj; discriminate).
    assert (Hs1 : Str.startswith "/" (Str.join "/" (c :: l)) = false).
    { rewrite Hj, startswith_char. apply bool_decide_eq_false_2. congruence. }
    rewrite (bool_decide_eq_false_2 _ Hj0).
    rewrite Hs1, Hsplit, (foldl_norm_step_keep _ _ _ Hl). simpl app.
    change (Str.join "" (replicate 0 "/") ++ Str.join "/" (c :: l))
      with (Str.join "/" (c :: l)).
    by rewrite (bool_decide_eq_false_2 _ Hj0).
Qed.

(** The directories of a path, each followed by a slash. *)
Fixpoint dirpart (dirs : list string) : string :=
  match dirs with
  | [] => ""
  | d :: rest => d ++ "/" ++ dirpart rest
  end.

Lemma join_snoc dirs m : Str.join "/" (dirs ++ [m]) = dirpart dirs ++ m.
Proof.
  induction dirs as [|d dirs IH]; [reflexivity|].
  change (Str.join "/" ((d :: dirs) ++ [m]))
    with (Str.join "/" (d :: (dirs ++ [m]))).
  destruct (dirs ++ [m])%list as [|x l] eqn:E.
  - by destruct dirs.
  - change (Str.join "/" (d :: x :: l)) with (d ++ "/" ++ Str.join "/" (x :: l)).
    rewrite IH. simpl. by rewrite !str_app_assoc.
Qed.

Lemma dirpart_dir_like pre dirs :
  pre = "" ∨ pre = "/" → dir_like (pre ++ dirpart dirs).
Proof.
  intros Hpre. induction dirs as [|d dirs IH] using rev_ind.
  - simpl. rewrite str_app_empty_r. destruct Hpre as [->| ->]; [by left|].
    right. by exists "".
  - right. exists (pre ++ dirpart dirs ++ d).
    assert (H : ∀ l, dirpart (l ++ [d]) = dirpart l ++ d ++ "/").
    { induction l as [|y l IHl]; [reflexivity|].
      simpl. rewrite IHl. by rewrite !str_app_assoc. }
    rewrite H. by rewrite !str_app_assoc.
Qed.

Lemma contains_join c sep (l : list string) :
  Str.contains c sep = false →
  Forall (λ x, Str.contains c x = false) l →
  Str.contains c (Str.join sep l) = false.
Proof.
  intros Hsep Hl. induction Hl as [|x l Hx Hl IH]; [reflexivity|].
  destruct l as [|y l]; [exact Hx|].
  change (Str.join sep (x :: y :: l)) with (x ++ sep ++ Str.join sep (y :: l)).
  by rewrite !contains_app, Hx, Hsep, IH.
Qed.

Lemma replace_app a b s t :
  Str.replace a b (s ++ t) = Str.replace a b s ++ Str.replace a b t.
Proof. induction s as [|c s IH]; simpl; [reflexivity | by rewrite IH]. Qed.

Lemma replace_absent a b s : Str.contains a s = false → Str.replace a b s = s.
Proof.
  induction s as [|c s IH]; [reflexivity|]. simpl.
  intros [Hc Hs]%orb_false_iff. apply bool_decide_eq_false in Hc.
  by rewrite decide_False, IH.
Qed.

Lemma replace_join a b sep (l : list string) :
  Str.replace a b (Str.join sep l)
  = Str.join (Str.replace a b sep) (Str.replace a b <$> l).
Proof.
  induction l as [|x l IH]; [reflexivity|].
  destruct l as [|y l]; [reflexivity|].
  change (Str.join sep (x :: y :: l)) with (x ++ sep ++ Str.join sep (y :: l)).
  rewrite !replace_app, IH. reflexivity.
Qed.

Lemma startswith_app p a s t :
  Str.startswith (String p "") (String a s ++ t) = Str.startswith (String p "") (String a s).
Proof.
  change (String a s ++ t) with (String a (s ++ t)). by rewrite !startswith_char.
Qed.

(** X17: for a path made of plain components (not empty, without slash,
    dot and colon), absolute, or relative and not starting with a tilde,
    followed by the extension [.py], [to_pyname] returns the components, hyphens
    replaced by underscores, joined by dots, after a leading dot if the path
    is absolute. *)
Theorem to_pyname_plain_path (σ : interp) (absolute : bool) (dirs : list string)
    (m : string) :
  Forall plain (dirs ++ [m])%list →
  absolute = true ∨ Str.startswith "~" (Str.join "/" (dirs ++ [m])%list) = false →
  PyName.to_pyname
    ((if absolute then "/" else "") ++ Str.join "/" (dirs ++ [m])%list ++ ".py") σ
  = (inr ((if absolute then "." else "")
          ++ Str.join "." (Str.replace "-"%char "_"%char <$> (dirs ++ [m])%list)), σ).
Proof.
  intros Hplain Htilde.
  set (pre := if absolute then "/" else "").
  set (comps := (dirs ++ [m])%list) in *.
  assert (Hm : plain m).
  { apply (proj1 (Forall_forall _ _) Hplain). apply elem_of_app. right. by left. }
  destruct Hm as (Hmne & Hms & Hmd & Hmc).
  destruct m as [|a l]; [done|].
  assert (Ha : a ≠ "."%char).
  { simpl in Hmd. by apply orb_false_iff in Hmd as [H%bool_decide_eq_false _]. }
  assert (Hpre : pre = "" ∨ pre = "/") by (subst pre; destruct absolute; eauto).
  (* the path, cut at its last component and at its extension *)
  assert (Hjoin : Str.join "/" comps = dirpart dirs ++ String a l)
    by apply join_snoc.
  assert (Hpath : pre ++ Str.join "/" comps ++ ".py"
                  = (pre ++ dirpart dirs) ++ String a l ++ String "."%char "py").
  { rewrite Hjoin. by rewrite !str_app_assoc. }
  (* normpath *)
  assert (Hnorm : posixpath.normpath (pre ++ Str.join "/" comps ++ ".py")
                  = pre ++ Str.join "/" comps ++ ".py").
  { assert (Hj2 : Str.join "/" comps ++ ".py"
                  = Str.join "/" (dirs ++ [(String a l ++ ".py")%string])%list).
    { by rewrite Hjoin, join_snoc, str_app_assoc. }
    rewrite Hj2. subst pre. apply normpath_components; [by destruct dirs|].
    apply Forall_app. split.
    - apply Forall_app in Hplain as [Hd _].
      eapply Forall_impl; [exact Hd | apply plain_component].
    - constructor; [|constructor]. repeat split; try done.
      + rewrite contains_app, Hms. reflexivity.
      + simpl. intros [= -> _]. done.
      + simpl. intros [= -> _]. done. }
  (* expanduser *)
  assert (Hs : Str.startswith "~" (pre ++ Str.join "/" comps ++ ".py") = false).
  { subst pre. destruct absolute.
    - change ("/" ++ Str.join "/" comps ++ ".py")
        with (String "/"%char (Str.join "/" comps ++ ".py")).
      by rewrite startswith_char.
    - change ("" ++ Str.join "/" comps ++ ".py") with (Str.join "/" comps ++ ".py").
      destruct Htilde as [?|Ht]; [done|].
      destruct (Str.join "/" comps) as [|x rest] eqn:E.
      + rewrite Hjoin in E. by destruct (dirpart dirs).
      + by rewrite startswith_app. }
  rewrite <- Hnorm in Hs.
  rewrite to_pyname_spec, (outcome_no_tilde _ _ Hs), Hnorm. unfold convert.
  rewrite Hpath, splitext_stem; try done.
  2: { by apply dirpart_dir_like. }
  2: { by rewrite contains_app, Hms. }
  rewrite !(str_app_assoc pre (dirpart dirs)), <- Hjoin.
  rewrite bool_decide_eq_false_2 by (intros H; by apply H).
  assert (Hno : ∀ c, c ≠ "-"%char → c ≠ "_"%char → c ≠ "/"%char →
                 Forall (λ x, Str.contains c x = false) comps →
                 Str.contains c (Str.replace "-"%char "_"%char
                                   (pre ++ Str.join "/" comps)) = false).
  { intros c H1 H2 H3 Hall. rewrite contains_replace_other by done.
    rewrite contains_app, contains_join; [| |exact Hall].
    - rewrite orb_false_r. destruct Hpre as [->| ->]; [reflexivity|].
      simpl. by rewrite bool_decide_eq_false_2 by congruence.
    - simpl. by rewrite bool_decide_eq_false_2 by congruence. }
  rewrite (Hno "."%char), (Hno ":"%char); try done.
  2: { eapply Forall_impl; [exact Hplain|]. by intros x (_ & _ & _ & ?). }
  2: { eapply Forall_impl; [exact Hplain|]. by intros x (_ & _ & ? & _). }
  cbn [orb]. f_equal. f_equal.
  rewrite !replace_app, !replace_join.
  change (Str.replace "-"%char "_"%char "/") with "/".
  change (Str.replace "/"%char "."%char "/") with ".".
  assert (Hpre' : Str.replace "/"%char "."%char (Str.replace "-"%char "_"%char pre)
                  = if absolute then "." else "").
  { subst pre. by destruct absolute. }
  rewrite Hpre'. f_equal. f_equal.
  rewrite <- list_fmap_compose. apply list_fmap_ext.
  intros i x Hx. simpl. apply replace_absent.
  rewrite contains_replace_other by done.
  assert (Hin : x ∈ comps) by (by eapply list_elem_of_lookup_2).
  by destruct (proj1 (Forall_forall _ _) Hplain x Hin) as (_ & ? & _).
Qed.

Lemma to_pyname_plain_path_witness :
  PyName.to_pyname
    ("/" ++ Str.join "/" (["usr"; "lib"; "python"] ++ ["unit-test"])%list ++ ".py")
    empty_interp
  = (inr ("." ++ Str.join "." (Str.replace "-"%char "_"%char
                                 <$> (["usr"; "lib"; "python"] ++ ["unit-test"])%list)),
     empty_interp).
Proof.
  apply (to_pyname_plain_path empty_interp true ["usr"; "lib"; "python"] "unit-test").
  - repeat constructor; discriminate.
  - by left.
Defined.


(** ** [to_pyname] under the home directory and above the current one *)

Lemma substring_all s : String.substring 0 (String.length s) s = s.
Proof. induction s as [|a s IH]; simpl; [reflexivity | by rewrite IH]. Qed.

Lemma expanded_home home uid nam rest :
  expanded (Some home, uid, nam) ("~/" ++ rest)
  = Str.rstrip "/"%char home ++ "/" ++ rest.
Proof.
  unfold expanded.
  change (Str.startswith "~" ("~/" ++ rest)) with (Str.startswith "~" (String "~"%char (String "/"%char rest))).
  rewrite startswith_char, bool_decide_eq_true_2 by reflexivity. cbn [negb].
  change (Str.find "/"%char ("~/" ++ rest) 1) with 1%Z.
  rewrite (bool_decide_eq_false_2 (1 < 0)%Z) by lia.
  change (Z.to_nat 1) with 1. rewrite bool_decide_eq_true_2 by reflexivity.
  unfold Str.slice_from.
  change (String.substring 1 (String.length ("~/" ++ rest) - 1) ("~/" ++ rest))
    with (String.substring 0 (String.length (String "/"%char rest)) (String "/"%char rest)).
  rewrite substring_all.
  change (String "/"%char rest) with ("/" ++ rest).
  rewrite bool_decide_eq_false_2; [reflexivity|].
  destruct (Str.rstrip "/"%char home); discriminate.
Qed.

Lemma module_file_components dirs m :
  Forall plain (dirs ++ [m])%list →
  Forall component (dirs ++ [(m ++ ".py")%string])%list.
Proof.
  intros [Hd Hm]%Forall_app. apply Forall_app. split.
  - eapply Forall_impl; [exact Hd | apply plain_component].
  - apply Forall_inv in Hm as (Hne & Hs & Hdot & _).
    destruct m as [|a l]; [done|]. constructor; [|constructor].
    simpl in Hdot. apply orb_false_iff in Hdot as [Ha%bool_decide_eq_false _].
    repeat split; try done.
    + by rewrite contains_app, Hs.
    + simpl. intros [= -> _]. done.
    + simpl. intros [= -> _]. done.
Qed.

Lemma join_cons sep x (l : list string) :
  l ≠ [] → Str.join sep (x :: l) = x ++ sep ++ Str.join sep l.
Proof. by destruct l. Qed.

Lemma nul_user_home rest : nul_user ("~/" ++ rest) = false.
Proof. reflexivity. Qed.

(** X18: with [HOME] set, a path of plain components under ["~/"] converts
    like the same path under the home directory (its trailing slashes
    removed), whenever that longer path is normalised and does not start
    with a tilde. *)
Theorem to_pyname_under_home (σ : interp) (home : string) (dirs : list string)
    (m r : string) :
  environ σ !! "HOME" = Some home →
  Forall plain (dirs ++ [m])%list →
  posixpath.normpath (Str.rstrip "/"%char home ++ "/" ++ Str.join "/" (dirs ++ [m])%list ++ ".py")
  = Str.rstrip "/"%char home ++ "/" ++ Str.join "/" (dirs ++ [m])%list ++ ".py" →
  Str.startswith "~" (Str.rstrip "/"%char home ++ "/") = false →
  (PyName.to_pyname ("~/" ++ Str.join "/" (dirs ++ [m])%list ++ ".py") σ).1 = inr r
  ↔ (PyName.to_pyname
       (Str.rstrip "/"%char home ++ "/" ++ Str.join "/" (dirs ++ [m])%list ++ ".py") σ).1
    = inr r.
Proof.
  intros Hhome Hplain Hnorm Htilde. rewrite !to_pyname_spec. cbn [fst].
  assert (Hs : Str.startswith "~" (Str.rstrip "/"%char home ++ "/"
                 ++ Str.join "/" (dirs ++ [m])%list ++ ".py") = false).
  { destruct (Str.rstrip "/"%char home) as [|a h'].
    - reflexivity.
    - change (String a h' ++ "/") with (String a (h' ++ "/")) in Htilde.
      change (String a h' ++ "/" ++ Str.join "/" (dirs ++ [m])%list ++ ".py")
        with (String a (h' ++ "/" ++ Str.join "/" (dirs ++ [m])%list ++ ".py")).
      by rewrite startswith_char in *. }
  rewrite <- Hnorm in Hs. rewrite (outcome_no_tilde _ _ Hs), Hnorm.
  assert (Hj : Str.join "/" (dirs ++ [m])%list ++ ".py"
               = Str.join "/" (dirs ++ [(m ++ ".py")%string])%list).
  { by rewrite !join_snoc, str_app_assoc. }
  assert (Hn2 : posixpath.normpath ("~/" ++ Str.join "/" (dirs ++ [m])%list ++ ".py")
                = "~/" ++ Str.join "/" (dirs ++ [m])%list ++ ".py").
  { rewrite Hj.
    assert (Hc : "~/" ++ Str.join "/" (dirs ++ [(m ++ ".py")%string])%list
                 = "" ++ Str.join "/" ("~" :: dirs ++ [(m ++ ".py")%string])%list).
    { rewrite join_cons; [reflexivity | by destruct dirs]. }
    rewrite Hc. apply (normpath_components false); [done|].
    constructor; [by repeat split | by apply module_file_components]. }
  unfold outcome. rewrite Hn2, nul_user_home.
  unfold home_env. rewrite Hhome, expanded_home.
  split; apply convert_value.
Qed.

Lemma to_pyname_under_home_witness :
  (PyName.to_pyname ("~/" ++ Str.join "/" (["pkg"] ++ ["mod-a"])%list ++ ".py")
     home_interp).1 = inr ".home.u.pkg.mod_a"
  ↔ (PyName.to_pyname
       (Str.rstrip "/"%char "/home/u" ++ "/" ++ Str.join "/" (["pkg"] ++ ["mod-a"])%list
        ++ ".py") home_interp).1
    = inr ".home.u.pkg.mod_a".
Proof.
  apply (to_pyname_under_home home_interp "/home/u" ["pkg"] "mod-a").
  - reflexivity.
  - repeat constructor; discriminate.
  - reflexivity.
  - reflexivity.
Defined.

Lemma rfind_from_bound c t pos :
  (0 ≤ Str.rfind_from c t pos)%Z → (Z.of_nat pos ≤ Str.rfind_from c t pos)%Z.
Proof.
  revert pos. induction t as [|a t IH]; intros pos; simpl; [lia|].
  destruct (bool_decide _) eqn:E.
  - apply bool_decide_eq_true in E. intros _. specialize (IH _ E). lia.
  - destruct (decide (a = c)); lia.
Qed.

Lemma startswith_cons p ps a s :
  Str.startswith (String p ps) (String a s)
  = bool_decide (p = a) && Str.startswith ps s.
Proof.
  unfold Str.startswith.
  change (String.prefix (String p ps) (String a s))
    with (if ascii_dec p a then String.prefix ps s else false).
  destruct (ascii_dec p a) as [->|Hne].
  - by rewrite bool_decide_eq_true_2.
  - by rewrite bool_decide_eq_false_2.
Qed.

Lemma startswith_nil p ps : Str.startswith (String p ps) "" = false.
Proof. reflexivity. Qed.

(** X19: a path whose normal form starts with ["../"] is never converted:
    [to_pyname] raises a [PyNameError], because the parent directory leaves
    a dot in the name (or the extension is wrong). *)
Theorem to_pyname_rejects_parent (σ : interp) (fname : string) :
  Str.startswith "../" (posixpath.normpath fname) = true →
  ∃ msg, PyName.to_pyname fname σ = (inl (PyNameError msg), σ).
Proof.
  intros Hup. rewrite to_pyname_spec. unfold outcome.
  destruct (posixpath.normpath fname) as [|a [|b [|c rest]]] eqn:Hn;
    rewrite ?startswith_cons, ?startswith_nil, ?andb_false_r in Hup;
    try discriminate.
  apply andb_true_iff in Hup as [<-%bool_decide_eq_true Hup].
  apply andb_true_iff in Hup as [<-%bool_decide_eq_true Hup].
  apply andb_true_iff in Hup as [<-%bool_decide_eq_true _].
  change (nul_user (String "."%char (String "."%char (String "/"%char rest))))
    with false. cbv iota.
  change (expanded (home_env σ) (String "."%char (String "."%char (String "/"%char rest))))
    with (String "."%char (String "."%char (String "/"%char rest))).
  unfold convert, posixpath.splitext.
  set (p := String "."%char (String "."%char (String "/"%char rest))).
  assert (Hsep : (2 ≤ Str.rfind "/"%char p)%Z).
  { unfold Str.rfind, p.
    change (String "."%char (String "."%char (String "/"%char rest)))
      with (".." ++ String "/"%char rest).
    rewrite rfind_from_app. simpl String.length.
    pose proof (rfind_from_head "/"%char rest (0 + 2)) as H0.
    rewrite bool_decide_eq_true_2 by exact H0.
    apply rfind_from_bound in H0. simpl in *. lia. }
  set (d := Str.rfind "."%char p) in *. set (sp := Str.rfind "/"%char p) in *.
  destruct (_ && _) eqn:Hcond.
  - apply andb_true_iff in Hcond as [Hgt%bool_decide_eq_true _].
    destruct (bool_decide (_ ≠ ".py")); [by eexists|].
    unfold Str.slice. destruct (Z.to_nat d) as [|k] eqn:Hk; [lia|].
    simpl. by eexists.
  - rewrite bool_decide_eq_true_2 by discriminate. by eexists.
Qed.

Lemma to_pyname_rejects_parent_witness :
  ∃ msg, PyName.to_pyname "pkg/../../mod.py" empty_interp
         = (inl (PyNameError msg), empty_interp).
Proof.
  apply (to_pyname_rejects_parent empty_interp "pkg/../../mod.py"). reflexivity.
Defined.
